(** * CodeCollab backend: session synchronizer and /run endpoint

    A shallow embedding of [backend/server.js]: the Socket.IO handlers
    ([join], [file:update], [file:create], [file:delete], [chat:message],
    [disconnect]) over the Redis store, and the [POST /run] handler over an
    explicit log of file-system and process effects. *)

From Stdlib Require Import ZArith Ascii String List Bool Lia.
From stdpp Require Import base decidable countable strings pretty gmap list fin_maps.

(** ** JavaScript values carried by request payloads

    Payload fields are JSON scalars, or absent ([JUndefined]).  Numbers are
    the safe integers; objects and arrays are not modelled.  A string is a
    sequence of code units below 256. *)
Module JS.

(** [Number.isSafeInteger]: the integers of absolute value below [2^53].
    A Number holds each of them exactly, and [String] prints all their
    digits, without an exponent. *)
Definition safe (n : Z) : bool := (9007199254740991 >=? Z.abs n)%Z.

Definition safe_integer : Type := { n : Z | Is_true (safe n) }.

Inductive jsval : Type :=
| JUndefined
| JNull
| JBool (b : bool)
| JNum (n : safe_integer)
| JStr (s : string).

#[global] Instance jsval_eq_dec : EqDecision jsval.
Proof. solve_decision. Defined.

Definition jsval_code (v : jsval) : unit + unit + bool + safe_integer + string :=
  match v with
  | JUndefined => inl (inl (inl (inl tt)))
  | JNull => inl (inl (inl (inr tt)))
  | JBool b => inl (inl (inr b))
  | JNum n => inl (inr n)
  | JStr s => inr s
  end.

Definition jsval_decode (c : unit + unit + bool + safe_integer + string) : jsval :=
  match c with
  | inl (inl (inl (inl _))) => JUndefined
  | inl (inl (inl (inr _))) => JNull
  | inl (inl (inr b)) => JBool b
  | inl (inr n) => JNum n
  | inr s => JStr s
  end.

#[global] Instance jsval_countable : Countable jsval.
Proof.
  apply (inj_countable' jsval_code jsval_decode).
  intros []; reflexivity.
Defined.

(** [ToBoolean]: what [!v] and [v ? a : b] test. *)
Definition truthy (v : jsval) : bool :=
  match v with
  | JUndefined | JNull => false
  | JBool b => b
  | JNum n => negb (`n =? 0)%Z
  | JStr s => negb (String.eqb s "")
  end.

(** A destructuring default [{ x = d }] applies to [undefined] only. *)
Definition dflt (d : string) (v : jsval) : jsval :=
  match v with
  | JUndefined => JStr d
  | _ => v
  end.

(** [String(v)], the conversion of template literals. *)
Definition toString (v : jsval) : string :=
  match v with
  | JUndefined => "undefined"
  | JNull => "null"
  | JBool true => "true"
  | JBool false => "false"
  | JNum n => pretty (`n)
  | JStr s => s
  end.

(** [a || b] on values. *)
Definition or_else (a b : jsval) : jsval := if truthy a then a else b.

End JS.
Import JS.

(** ** The Redis store, as the handlers use it through ioredis *)
Module Redis.

Record redis : Type := mkRedis {
  hashes : gmap string (gmap string string);
  sets : gmap string (gset string)
}.

Definition empty : redis := mkRedis ∅ ∅.

(** ioredis turns every command argument into a string: [null] and
    [undefined] become the empty string, anything else [String(arg)]. *)
Definition toArg (v : jsval) : string :=
  match v with
  | JUndefined | JNull => ""
  | _ => toString v
  end.

Definition hgetall (key : string) (r : redis) : gmap string string :=
  default ∅ (hashes r !! key).

Definition hset (key field value : string) (r : redis) : redis :=
  mkRedis (<[key := <[field := value]> (hgetall key r)]> (hashes r)) (sets r).

(** A hash that loses its last field is removed with its key. *)
Definition hdel (key field : string) (r : redis) : redis :=
  let h := delete field (hgetall key r) in
  mkRedis (if decide (h = ∅) then delete key (hashes r)
           else <[key := h]> (hashes r))
          (sets r).

Definition smembers_set (key : string) (r : redis) : gset string :=
  default ∅ (sets r !! key).

Definition smembers (key : string) (r : redis) : list string :=
  elements (smembers_set key r).

Definition sadd (key member : string) (r : redis) : redis :=
  mkRedis (hashes r) (<[key := {[member]} ∪ smembers_set key r]> (sets r)).

Definition srem (key member : string) (r : redis) : redis :=
  let s := smembers_set key r ∖ {[member]} in
  mkRedis (hashes r)
          (if decide (s = ∅) then delete key (sets r)
           else <[key := s]> (sets r)).

End Redis.
Import Redis.

(** ** Key helpers *)
Definition sessionKey (sessionId : jsval) : string :=
  "session:" +:+ toString sessionId.
Definition filesKey (sessionId : jsval) : string :=
  sessionKey sessionId +:+ ":files".
Definition usersKey (sessionId : jsval) : string :=
  sessionKey sessionId +:+ ":users".

(** ** The session synchronizer

    Every handler is an [async] function: it runs up to its next [await] on
    a store command and resumes when the reply arrives.  Commands travel on
    one connection, so the store executes them in the order they are issued
    and the replies resume the waiting handlers in that same order.  The
    state therefore carries a first-in first-out queue of suspended
    handlers, each with the values it has captured so far. *)
Module Sync.

Definition sid : Type := string.

(** Events a socket delivers to the server, with the fields of the payload
    object; [Disconnect] is the reserved event of a closing socket. *)
Inductive client_event : Type :=
| Join (sessionId userName : jsval)
| FileUpdate (sessionId filename content : jsval)
| FileCreate (sessionId filename content : jsval)
| FileDelete (sessionId filename : jsval)
| ChatMsg (sessionId userName text : jsval)
| Disconnect.

#[global] Instance client_event_eq_dec : EqDecision client_event.
Proof. solve_decision. Defined.

(** Events the server emits. *)
Inductive server_event : Type :=
| SessionInit (files : gmap string string) (users : list string)
| UserJoin (userName : jsval)
| FileUpdated (filename content : jsval)
| FileCreated (filename content : jsval)
| FileDeleted (filename : jsval)
| ChatMessage (userName text : jsval) (time : Z)
| UserLeft (userName : jsval).

#[global] Instance server_event_eq_dec : EqDecision server_event.
Proof. solve_decision. Defined.

(** A socket is open, with the rooms it has joined, or closed for good. *)
Inductive sock_state : Type :=
| Open (rooms : gset jsval)
| Closed.

Definition sock_in (room : jsval) (kv : sid * sock_state) : Prop :=
  match kv.2 with
  | Open rs => room ∈ rs
  | Closed => False
  end.

#[global] Instance sock_in_dec room kv : Decision (sock_in room kv).
Proof. unfold sock_in. destruct (kv.2); apply _. Defined.

(** A handler suspended at an [await]. *)
Inductive cont : Type :=
| KJoinFiles (s : sid) (sessionId userName : jsval)
| KJoinUsers (s : sid) (sessionId userName : jsval)
             (files : gmap string string)
| KJoinEmit (s : sid) (sessionId userName : jsval)
            (files : gmap string string) (users : list string)
| KUpdated (s : sid) (sessionId filename content : jsval)
| KCreated (sessionId filename content : jsval)
| KDeleted (sessionId filename : jsval)
| KLeft (s : sid) (sessionId userName : jsval)
| KSaved (sessionId : string) (filename content : jsval).

Inductive http_reply : Type :=
| BadRequest (error : string)
| SavedOk.

Record server : Type := mkServer {
  store : redis;
  socks : gmap sid sock_state;
  socketUser : gmap sid (jsval * jsval);
  pending : list cont;
  outbox : list (sid * server_event);
  replies : list http_reply
}.

Definition init : server := mkServer Redis.empty ∅ ∅ [] [] [].

Definition set_store (r : redis) (st : server) : server :=
  mkServer r (socks st) (socketUser st) (pending st) (outbox st) (replies st).
Definition set_socks (m : gmap sid sock_state) (st : server) : server :=
  mkServer (store st) m (socketUser st) (pending st) (outbox st) (replies st).
Definition set_socketUser (m : gmap sid (jsval * jsval)) (st : server) : server :=
  mkServer (store st) (socks st) m (pending st) (outbox st) (replies st).
Definition set_pending (q : list cont) (st : server) : server :=
  mkServer (store st) (socks st) (socketUser st) q (outbox st) (replies st).
Definition send (out : list (sid * server_event)) (st : server) : server :=
  mkServer (store st) (socks st) (socketUser st) (pending st)
           (outbox st ++ out) (replies st).
Definition reply (r : http_reply) (st : server) : server :=
  mkServer (store st) (socks st) (socketUser st) (pending st) (outbox st)
           (replies st ++ [r]).

(** [await cmd]: the command is issued and the rest of the handler waits
    behind the handlers already waiting. *)
Definition await (k : cont) (st : server) : server :=
  set_pending (pending st ++ [k]) st.

Definition is_open (s : sid) (st : server) : bool :=
  match socks st !! s with
  | Some (Open _) => true
  | _ => false
  end.

(** The sockets in a room.  *)
Definition members (room : jsval) (st : server) : list sid :=
  elements (dom (filter (sock_in room) (socks st))).

(** [socket.join(room)] *)
Definition socket_join (s : sid) (room : jsval) (st : server) : server :=
  match socks st !! s with
  | Some (Open rs) => set_socks (<[s := Open ({[room]} ∪ rs)]> (socks st)) st
  | _ => st
  end.

(** [socket.emit(ev)]: to the socket itself. *)
Definition socket_emit (s : sid) (ev : server_event) (st : server) : server :=
  if is_open s st then send [(s, ev)] st else st.

(** [socket.to(room).emit(ev)]: to the room, the sender left out. *)
Definition socket_to_emit (s : sid) (room : jsval) (ev : server_event)
           (st : server) : server :=
  send (map (λ r, (r, ev)) (filter (λ r, r ≠ s) (members room st))) st.

(** [io.in(room).emit(ev)]: to the whole room. *)
Definition io_in_emit (room : jsval) (ev : server_event) (st : server) : server :=
  send (map (λ r, (r, ev)) (members room st)) st.

(** *** The handlers, up to their first [await] *)

Definition on_join (s : sid) (sessionId userName : jsval) (st : server) : server :=
  let sessionId := dflt "default" sessionId in
  let userName := dflt "Anonymous" userName in
  let st := socket_join s sessionId st in
  let st := set_socketUser (<[s := (sessionId, userName)]> (socketUser st)) st in
  let st := set_store (sadd (usersKey sessionId) (toArg userName) (store st)) st in
  await (KJoinFiles s sessionId userName) st.

Definition on_file_update (s : sid) (sessionId filename content : jsval)
           (st : server) : server :=
  let sessionId := dflt "default" sessionId in
  if negb (truthy filename) then st
  else
    let st := set_store (hset (filesKey sessionId) (toArg filename)
                              (toArg content) (store st)) st in
    await (KUpdated s sessionId filename content) st.

Definition on_file_create (s : sid) (sessionId filename content : jsval)
           (st : server) : server :=
  let sessionId := dflt "default" sessionId in
  let content := dflt "" content in
  if negb (truthy filename) then st
  else
    let st := set_store (hset (filesKey sessionId) (toArg filename)
                              (toArg content) (store st)) st in
    await (KCreated sessionId filename content) st.

Definition on_file_delete (s : sid) (sessionId filename : jsval)
           (st : server) : server :=
  let sessionId := dflt "default" sessionId in
  if negb (truthy filename) then st
  else
    let st := set_store (hdel (filesKey sessionId) (toArg filename) (store st)) st in
    await (KDeleted sessionId filename) st.

Definition on_chat_message (now : Z) (s : sid) (sessionId userName text : jsval)
           (st : server) : server :=
  let sessionId := dflt "default" sessionId in
  io_in_emit sessionId (ChatMessage userName text now) st.

Definition on_disconnect (s : sid) (st : server) : server :=
  match socketUser st !! s with
  | Some (sessionId, userName) =>
      let st := set_store (srem (usersKey sessionId) (toArg userName) (store st)) st in
      await (KLeft s sessionId userName) st
  | None => st
  end.

(** [POST /files/:sessionId/save] *)
Definition on_save (sessionId : string) (filename content : jsval)
           (st : server) : server :=
  if negb (truthy filename) || bool_decide (content = JNull ∨ content = JUndefined)
  then reply (BadRequest "filename & content required") st
  else
    let st := set_store (hset (filesKey (JStr sessionId)) (toArg filename)
                              (toArg content) (store st)) st in
    await (KSaved sessionId filename content) st.

(** *** The handlers, from one [await] to the next *)
Definition resume (k : cont) (st : server) : server :=
  match k with
  | KJoinFiles s sessionId userName =>
      let files := hgetall (filesKey sessionId) (store st) in
      await (KJoinUsers s sessionId userName files) st
  | KJoinUsers s sessionId userName files =>
      let users := smembers (usersKey sessionId) (store st) in
      await (KJoinEmit s sessionId userName files users) st
  | KJoinEmit s sessionId userName files users =>
      let st := socket_emit s (SessionInit files users) st in
      socket_to_emit s sessionId (UserJoin userName) st
  | KUpdated s sessionId filename content =>
      socket_to_emit s sessionId (FileUpdated filename content) st
  | KCreated sessionId filename content =>
      io_in_emit sessionId (FileCreated filename content) st
  | KDeleted sessionId filename =>
      io_in_emit sessionId (FileDeleted filename) st
  | KLeft s sessionId userName =>
      let st := socket_to_emit s sessionId (UserLeft userName) st in
      set_socketUser (delete s (socketUser st)) st
  | KSaved sessionId filename content =>
      let st := io_in_emit (JStr sessionId) (FileUpdated filename content) st in
      reply SavedOk st
  end.

(** *** The event loop *)
Inductive action : Type :=
| Connect (s : sid)
| Arrive (now : Z) (s : sid) (e : client_event)
| HttpSave (sessionId : string) (filename content : jsval)
| Resume.

#[global] Instance action_eq_dec : EqDecision action.
Proof. solve_decision. Defined.

Definition dispatch (now : Z) (s : sid) (e : client_event) (st : server) : server :=
  match e with
  | Join sessionId userName => on_join s sessionId userName st
  | FileUpdate sessionId filename content =>
      on_file_update s sessionId filename content st
  | FileCreate sessionId filename content =>
      on_file_create s sessionId filename content st
  | FileDelete sessionId filename => on_file_delete s sessionId filename st
  | ChatMsg sessionId userName text => on_chat_message now s sessionId userName text st
  | Disconnect =>
      (* the socket has left its rooms when the handler runs *)
      on_disconnect s (set_socks (<[s := Closed]> (socks st)) st)
  end.

Definition step (st : server) (a : action) : server :=
  match a with
  | Connect s =>
      match socks st !! s with
      | None => set_socks (<[s := Open {[JStr s]}]> (socks st)) st
      | Some _ => st
      end
  | Arrive now s e => if is_open s st then dispatch now s e st else st
  | HttpSave sessionId filename content => on_save sessionId filename content st
  | Resume =>
      match pending st with
      | [] => st
      | k :: q => resume k (set_pending q st)
      end
  end.

Definition run (st : server) (sched : list action) : server :=
  fold_left step sched st.

(** What the store holds for a file of a session. *)
Definition stored (st : server) (sessionId : jsval) (filename : string)
  : option string :=
  hgetall (filesKey sessionId) (store st) !! filename.


(** *** Vocabulary for schedules *)

(** [r] is connected and in [room]. *)
Definition in_session (r : sid) (room : jsval) (st : server) : Prop :=
  ∃ rs, socks st !! r = Some (Open rs) ∧ room ∈ rs.

Fixpoint resumes (sched : list action) : nat :=
  match sched with
  | [] => 0
  | Resume :: rest => S (resumes rest)
  | _ :: rest => resumes rest
  end.

(** [st] is the state right after a handler has suspended, so that it
    waits last in [pending st]; [mid] is what the server does until the
    reply to that handler's command arrives: it resumes every handler
    that was waiting before, and handles any number of new events. *)
Definition until_reply (st : server) (mid : list action) : Prop :=
  S (resumes mid) = length (pending st).

(** The action stores a value for [field] in the hash [key]. *)
Definition sets_file (key field : string) (a : action) : bool :=
  match a with
  | Arrive _ _ (FileUpdate sessionId filename _)
  | Arrive _ _ (FileCreate sessionId filename _) =>
      truthy filename
      && bool_decide (filesKey (dflt "default" sessionId) = key)
      && bool_decide (toArg filename = field)
  | HttpSave sessionId filename content =>
      truthy filename
      && negb (bool_decide (content = JNull ∨ content = JUndefined))
      && bool_decide (filesKey (JStr sessionId) = key)
      && bool_decide (toArg filename = field)
  | _ => false
  end.

(** Run in [st], the action removes [member] from the set [key]. *)
Definition removes (key member : string) (st : server) (a : action) : bool :=
  match a with
  | Arrive _ s Disconnect =>
      is_open s st
      && match socketUser st !! s with
         | Some (sessionId, userName) =>
             bool_decide (usersKey sessionId = key)
             && bool_decide (toArg userName = member)
         | None => false
         end
  | _ => false
  end.

(** No action of the schedule, run from [st], removes [member] from [key]. *)
Fixpoint undisturbed (key member : string) (st : server) (sched : list action) : bool :=
  match sched with
  | [] => true
  | a :: rest =>
      negb (removes key member st a) && undisturbed key member (step st a) rest
  end.

(** [sched] handles the [file:update] requests [os] for one file of one
    session, in that order, and resumes suspended handlers in between. *)
Inductive updates_in_order (sessionId filename : jsval)
  : list action -> list (sid * jsval) -> Prop :=
| uio_nil : updates_in_order sessionId filename [] []
| uio_resume sched os :
    updates_in_order sessionId filename sched os ->
    updates_in_order sessionId filename (Resume :: sched) os
| uio_arrive now s content sched os :
    updates_in_order sessionId filename sched os ->
    updates_in_order sessionId filename
      (Arrive now s (FileUpdate sessionId filename content) :: sched)
      ((s, content) :: os).

End Sync.
Import Sync.

(** ** The client's chat box ([sendChat] of [App.js]) *)
Module Client.

(** What the client emits for a text typed in the chat box. *)
Definition sendChat (sessionId userName text : jsval) : list client_event :=
  if negb (truthy text) then []
  else [ChatMsg sessionId userName text].

End Client.


(** ** Source text scanning for the Java adapter *)
Module Regex.

Definition code_of (c : ascii) : nat := nat_of_ascii c.

(** [\s] on code units below 256. *)
Definition is_space (c : ascii) : bool :=
  let n := code_of c in
  ((9 <=? n)%nat && (n <=? 13)%nat) || (n =? 32)%nat || (n =? 160)%nat.

Definition is_alpha_ (c : ascii) : bool :=
  let n := code_of c in
  ((65 <=? n)%nat && (n <=? 90)%nat) || ((97 <=? n)%nat && (n <=? 122)%nat)
  || (n =? 95)%nat.

(** [\w] *)
Definition is_word (c : ascii) : bool :=
  let n := code_of c in
  is_alpha_ c || ((48 <=? n)%nat && (n <=? 57)%nat).

Fixpoint strip_prefix (p s : string) : option string :=
  match p, s with
  | EmptyString, _ => Some s
  | String a p', String b s' => if Ascii.eqb a b then strip_prefix p' s' else None
  | String _ _, EmptyString => None
  end.

(** The longest prefix of characters in a class, and what follows it. *)
Fixpoint span (f : ascii -> bool) (s : string) : string * string :=
  match s with
  | EmptyString => (EmptyString, EmptyString)
  | String c s' =>
      if f c then let '(a, b) := span f s' in (String c a, b)
      else (EmptyString, s)
  end.

(** One or more characters of a class. *)
Definition plus (f : ascii -> bool) (s : string) : option string :=
  match span f s with
  | (EmptyString, _) => None
  | (_, rest) => Some rest
  end.

(** The pattern of the Java branch, anchored at the start of [s]:
    [public], one or more [\s], [class], one or more [\s], then the
    captured group, an [A-Za-z_] followed by as many [\w] as there are.
    The result is the captured group. *)
Definition match_here (s : string) : option string :=
  match strip_prefix "public" s with
  | None => None
  | Some r1 =>
      match plus is_space r1 with
      | None => None
      | Some r2 =>
          match strip_prefix "class" r2 with
          | None => None
          | Some r3 =>
              match plus is_space r3 with
              | None => None
              | Some (String c r4) =>
                  if is_alpha_ c then Some (String c (fst (span is_word r4)))
                  else None
              | Some EmptyString => None
              end
          end
      end
  end.

(** [code.match(pattern)]: the leftmost match; [Some name] is
    [match[1]], [None] is [null]. *)
Fixpoint public_class (code : string) : option string :=
  match match_here code with
  | Some name => Some name
  | None =>
      match code with
      | EmptyString => None
      | String _ rest => public_class rest
      end
  end.

(** *** What a match is, said without the matcher *)

Fixpoint all_chars (f : ascii -> bool) (s : string) : bool :=
  match s with
  | EmptyString => true
  | String c s' => f c && all_chars f s'
  end.

(** [s] does not go on with a character of the class. *)
Definition stops (f : ascii -> bool) (s : string) : Prop :=
  match s with
  | EmptyString => True
  | String c _ => f c = false
  end.

Definition identifier (name : string) : Prop :=
  ∃ c tl, name = String c tl ∧ is_alpha_ c = true ∧ all_chars is_word tl = true.

(** [s] begins with a public class declaration of [name]: the word
    [public], white space, the word [class], white space, and the
    identifier [name] in full. *)
Definition declares_here (s name : string) : Prop :=
  ∃ ws1 ws2 rest,
    s = "public" +:+ ws1 +:+ "class" +:+ ws2 +:+ name +:+ rest
    ∧ ws1 ≠ "" ∧ all_chars is_space ws1 = true
    ∧ ws2 ≠ "" ∧ all_chars is_space ws2 = true
    ∧ identifier name ∧ stops is_word rest.

(** [name] is declared by the first public class declaration of [code]. *)
Definition first_declaration (code name : string) : Prop :=
  ∃ pre s,
    code = pre +:+ s ∧ declares_here s name
    ∧ ∀ pre' s' name',
        code = pre' +:+ s' → declares_here s' name' →
        String.length pre ≤ String.length pre'.

(** [code] has no public class declaration anywhere. *)
Definition no_declaration (code : string) : Prop :=
  ∀ pre s name, code = pre +:+ s → ¬ declares_here s name.

End Regex.
Import Regex.


(** ** The [POST /run] endpoint *)
Module Run.

(** What the handler does to the outside: directories made, files
    written, processes spawned.  *)
Inductive effect : Type :=
| MkDir (path : string)
| WriteFile (path : string) (data : jsval)
| Exec (command cwd : string) (timeoutMs : Z).

#[global] Instance effect_eq_dec : EqDecision effect.
Proof. solve_decision. Defined.

Definition is_exec (e : effect) : bool :=
  match e with Exec _ _ _ => true | _ => false end.
Definition is_write (e : effect) : bool :=
  match e with WriteFile _ _ => true | _ => false end.

(** What [exec] hands to its callback: [err.message] when [err] is set,
    and the two captured streams. *)
Record exec_outcome : Type := mkOutcome {
  err : option string;
  stdout : string;
  stderr : string
}.

(** The platform the server runs on.  The file system and the spawned
    programs answer as a function of what the handler has done so far. *)
Record world : Type := mkWorld {
  isWindows : bool;
  JAVA_HOME : option string;
  cwd : string;
  path_join : list string -> string;
  path_basename : string -> string -> string;
  (** message of the [TypeError] of [path] functions on a non-string *)
  path_type_error : jsval -> string;
  fs_exists : list effect -> string -> bool;
  (** [Some message] when the file-system call throws *)
  fs_fault : list effect -> effect -> option string;
  exec_result : list effect -> string -> string -> Z -> exec_outcome
}.

Inductive exn : Type := Error (message : string).

Definition message_of (e : exn) : string := match e with Error m => m end.

(** Computations that log effects and may throw. *)
Definition M (A : Type) : Type := list effect -> (A + exn) * list effect.

Definition ret {A} (a : A) : M A := fun log => (inl a, log).
Definition throw {A} (e : exn) : M A := fun log => (inr e, log).
Definition bind {A B} (m : M A) (k : A -> M B) : M B :=
  fun log =>
    match m log with
    | (inl a, log') => k a log'
    | (inr e, log') => (inr e, log')
    end.
Definition try_catch {A} (m : M A) (h : exn -> M A) : M A :=
  fun log =>
    match m log with
    | (inl a, log') => (inl a, log')
    | (inr e, log') => h e log'
    end.

Declare Scope run_scope.
Delimit Scope run_scope with run.
Notation "x <- m ;; k" := (bind m (fun x => k))
  (at level 62, m at next level, right associativity) : run_scope.
Notation "m ;;; k" := (bind m (fun _ => k))
  (at level 62, right associativity) : run_scope.
Open Scope run_scope.

Record cmd_result : Type := mkResult { ok : bool; out : string }.

Inductive body : Type :=
| ErrorBody (error : string)
| ResultBody (output : jsval) (ok : bool).

Record response : Type := mkResponse { status : nat; json : body }.

(** The fields of [req.body]. *)
Record request : Type := mkRequest {
  sessionId : jsval;
  language : jsval;
  filename : jsval;
  code : jsval
}.

(** [a || b] on strings: the empty string is falsy. *)
Definition str_or (a b : string) : string := if String.eqb a "" then b else a.

Definition dq : string := String (ascii_of_nat 34) EmptyString.
Definition quoted (s : string) : string := dq +:+ s +:+ dq.

Section Platform.
Variable w : world.

Definition BASE_TEMP : string := path_join w [cwd w; "temp"].

Definition existsSync (p : string) : M bool :=
  fun log => (inl (fs_exists w log p), log).

Definition fs_call (e : effect) : M unit :=
  fun log =>
    match fs_fault w log e with
    | Some m => (inr (Error m), log)
    | None => (inl tt, log ++ [e])
    end.

Definition mkdirSync (p : string) : M unit := fs_call (MkDir p).
Definition writeFileSync (p : string) (data : jsval) : M unit :=
  fs_call (WriteFile p data).

(** [path.join(folder, name)] with [name] taken from the request. *)
Definition join_name (folder : string) (name : jsval) : M string :=
  match name with
  | JStr n => ret (path_join w [folder; n])
  | _ => throw (Error (path_type_error w name))
  end.

Definition writeTempFile (folder : string) (filename content : jsval) : M string :=
  ex <- existsSync folder ;;
  (if ex then ret tt else mkdirSync folder) ;;;
  p <- join_name folder filename ;;
  writeFileSync p content ;;;
  ret p.

Definition runCommand (command cwd : string) (timeoutMs : Z) : M cmd_result :=
  fun log =>
    let o := exec_result w log command cwd timeoutMs in
    (inl match err o with
         | Some message =>
             (* prefer stderr but fallback to err.message *)
             mkResult false (str_or (stderr o) message)
         | None => mkResult true (stdout o)
         end,
     log ++ [Exec command cwd timeoutMs]).

Definition res_json (output : jsval) (ok : bool) : M response :=
  ret (mkResponse 200 (ResultBody output ok)).

(** [v === "s"] *)
Definition equals (v : jsval) (s : string) : bool := bool_decide (v = JStr s).

(** The class name of the Java branch. *)
Definition className (filename code : jsval) : M string :=
  match code with
  | JStr src =>
      match public_class src with
      | Some name => ret name
      | None =>
          if truthy filename then
            match filename with
            | JStr fn => ret (path_basename w fn ".java")
            | _ => throw (Error (path_type_error w filename))
            end
          else ret "Main"
      end
  | _ => throw (Error "code.match is not a function")
  end.

(** [process.env.JAVA_HOME ? process.env.JAVA_HOME : null] *)
Definition javaHome : option string :=
  match JAVA_HOME w with
  | Some h => if String.eqb h "" then None else Some h
  | None => None
  end.

Definition javac : string :=
  match javaHome with
  | Some h =>
      quoted (path_join w [h; "bin"; if isWindows w then "javac.exe" else "javac"])
  | None => "javac"
  end.

Definition javaCmd : string :=
  match javaHome with
  | Some h =>
      quoted (path_join w [h; "bin"; if isWindows w then "java.exe" else "java"])
  | None => "java"
  end.

Definition outExe (sessionTemp : string) : string :=
  if isWindows w then sessionTemp +:+ "\main.exe" else sessionTemp +:+ "/a.out".

Definition run_language (sessionTemp : string) (language filename code : jsval)
  : M response :=
  if equals language "python" then
    filePath <- writeTempFile sessionTemp (or_else filename (JStr "main.py")) code ;;
    let cmd := "python " +:+ quoted filePath in
    result <- runCommand cmd sessionTemp 15000 ;;
    res_json (JStr (out result)) (ok result)
  else if equals language "javascript" || equals language "node" then
    filePath <- writeTempFile sessionTemp (or_else filename (JStr "main.js")) code ;;
    let cmd := "node " +:+ quoted filePath in
    result <- runCommand cmd sessionTemp 15000 ;;
    res_json (JStr (out result)) (ok result)
  else if equals language "java" then
    className <- className filename code ;;
    let javaFileName := className +:+ ".java" in
    filePath <- writeTempFile sessionTemp (JStr javaFileName) code ;;
    let compileCmd := javac +:+ " " +:+ quoted filePath in
    compileResult <- runCommand compileCmd sessionTemp 10000 ;;
    if negb (ok compileResult) then res_json (JStr (out compileResult)) false
    else
      let runCmd := javaCmd +:+ " -cp " +:+ quoted sessionTemp +:+ " " +:+ className in
      runResult <- runCommand runCmd sessionTemp 10000 ;;
      res_json (JStr (out runResult)) (ok runResult)
  else if equals language "c" || equals language "cpp" then
    let ext := if equals language "c" then "c" else "cpp" in
    let sourceFile := or_else filename (JStr ("main." +:+ ext)) in
    filePath <- writeTempFile sessionTemp sourceFile code ;;
    if equals language "c" then
      let outExe := outExe sessionTemp in
      let compileCmd := "gcc " +:+ quoted filePath +:+ " -o " +:+ quoted outExe in
      compileResult <- runCommand compileCmd sessionTemp 15000 ;;
      if negb (ok compileResult) then res_json (JStr (out compileResult)) false
      else
        let runCmd := quoted outExe in
        runResult <- runCommand runCmd sessionTemp 10000 ;;
        res_json (JStr (out runResult)) (ok runResult)
    else
      let outExe := outExe sessionTemp in
      let compileCmd := "g++ " +:+ quoted filePath +:+ " -o " +:+ quoted outExe in
      compileResult <- runCommand compileCmd sessionTemp 15000 ;;
      if negb (ok compileResult) then res_json (JStr (out compileResult)) false
      else
        let runCmd := quoted outExe in
        runResult <- runCommand runCmd sessionTemp 10000 ;;
        res_json (JStr (out runResult)) (ok runResult)
  else if equals language "html" then
    res_json code true
  else
    res_json (JStr "Language not supported") false.

(** [app.post("/run", ...)]: [inl] is the response sent, [inr] an
    exception that escapes the handler. *)
Definition post_run (req : request) : M response :=
  let sessionId := dflt "default" (sessionId req) in
  let language := language req in
  let filename := filename req in
  let code := code req in
  if negb (truthy language) || negb (truthy code) then
    ret (mkResponse 400 (ErrorBody "language & code required"))
  else
    sessionTemp <- join_name BASE_TEMP sessionId ;;
    ex <- existsSync sessionTemp ;;
    (if ex then ret tt else mkdirSync sessionTemp) ;;;
    try_catch
      (run_language sessionTemp language filename code)
      (fun e =>
         ret (mkResponse 500
                (ResultBody (JStr ("Server error: " +:+ message_of e)) false))).

End Platform.

(** The effects a run added to the log it started from. *)
Definition added (log0 log : list effect) : list effect :=
  drop (length log0) log.

(** The first process of a log: what precedes it, its command, working
    directory and timeout, and what follows it. *)
Fixpoint first_exec (l : list effect)
  : option (list effect * (string * string * Z) * list effect) :=
  match l with
  | [] => None
  | Exec command cwd t :: rest => Some ([], (command, cwd, t), rest)
  | e :: rest =>
      match first_exec rest with
      | Some (pre, x, post) => Some (e :: pre, x, post)
      | None => None
      end
  end.

(** The compile commands of the compiled languages, with their timeouts. *)
Definition compile_step (w : world) (language : jsval) (command : string) (t : Z)
  : Prop :=
  (language = JStr "java" ∧ t = 10000%Z
   ∧ ∃ filePath, command = javac w +:+ " " +:+ quoted filePath)
  ∨ (language = JStr "c" ∧ t = 15000%Z
     ∧ ∃ filePath sessionTemp,
         command = "gcc " +:+ quoted filePath +:+ " -o " +:+ quoted (outExe w sessionTemp))
  ∨ (language = JStr "cpp" ∧ t = 15000%Z
     ∧ ∃ filePath sessionTemp,
         command = "g++ " +:+ quoted filePath +:+ " -o " +:+ quoted (outExe w sessionTemp)).

(** A computation that spawns no process. *)
Definition quiet {A} (m : M A) : Prop :=
  ∀ log, ∃ ext, snd (m log) = log ++ ext ∧ first_exec ext = None.

(** The first process a computation spawns, if any, is the compile step
    of [language]; when that step reports failure the computation spawns
    nothing more and responds with the captured diagnostic.  Without any
    process there is no result to respond with. *)
Definition short_circuits (w : world) (language : jsval) (m : M response) : Prop :=
  ∀ log, ∃ ext, snd (m log) = log ++ ext ∧
    match first_exec ext with
    | None => ∀ r, fst (m log) = inl r → status r ≠ 200
    | Some (pre, (command, cwd, t), rest) =>
        compile_step w language command t
        ∧ ∀ message,
            err (exec_result w (log ++ pre) command cwd t) = Some message →
            rest = []
            ∧ fst (m log)
              = inl (mkResponse 200
                       (ResultBody
                          (JStr (str_or
                                   (stderr (exec_result w (log ++ pre) command cwd t))
                                   message))
                          false))
    end.

(** A computation that returns a value and spawns no process. *)
Definition quiet_ok {A} (m : M A) : Prop :=
  ∀ log, ∃ a ext, m log = (inl a, log ++ ext) ∧ first_exec ext = None.

(** A computation that spawns a process. *)
Definition spawns {A} (m : M A) : Prop :=
  ∀ log, ∃ ext, snd (m log) = log ++ ext ∧ first_exec ext ≠ None.

(** Every response of a computation satisfies [P]. *)
Definition responds {A} (P : A → Prop) (m : M A) : Prop :=
  ∀ log a log', m log = (inl a, log') → P a.

(** The languages the handler has a branch for. *)
Definition registered : list string :=
  ["python"; "javascript"; "node"; "java"; "c"; "cpp"; "html"].

(** A POSIX host for evaluating examples: paths are joined with a slash,
    the base name is what follows the last slash with the suffix removed,
    no file-system call fails, a directory exists once made, and a spawned
    program answers as [script] says. *)
Fixpoint join_slash (parts : list string) : string :=
  match parts with
  | [] => "."
  | [p] => p
  | p :: rest => p +:+ "/" +:+ join_slash rest
  end.

Fixpoint last_segment (acc s : string) : string :=
  match s with
  | EmptyString => acc
  | String c s' =>
      if Ascii.eqb c "/"%char then last_segment EmptyString s'
      else last_segment (acc +:+ String c EmptyString) s'
  end.

Fixpoint drop_suffix (suffix s : string) : string :=
  match s with
  | EmptyString => EmptyString
  | String c s' => if String.eqb s' suffix then String c EmptyString
                   else String c (drop_suffix suffix s')
  end.

Definition posix (script : string -> exec_outcome) : world :=
  {| isWindows := false;
     JAVA_HOME := None;
     cwd := "/srv";
     path_join := join_slash;
     path_basename := fun p suffix => drop_suffix suffix (last_segment EmptyString p);
     path_type_error := fun _ => "The path argument must be of type string";
     fs_exists := fun log p => bool_decide (MkDir p ∈ log);
     fs_fault := fun _ _ => None;
     exec_result := fun _ command _ _ => script command |}.

End Run.
Import Run.


(** ** Sample sessions and hosts, for evaluating the model *)
Module Samples.

(** Two clients, alice on socket [a] and bob on socket [b], in session
    [s], every handler finished. *)
Definition two_clients : server :=
  run init [Connect "a"; Connect "b";
            Arrive 1 "a" (Join (JStr "s") (JStr "alice")); Resume; Resume; Resume;
            Arrive 2 "b" (Join (JStr "s") (JStr "bob")); Resume; Resume; Resume].

(** A refreshed page: the old socket [old] of alice is still connected
    when her new socket [new] connects. *)
Definition refreshing : server :=
  run init [Connect "old";
            Arrive 1 "old" (Join (JStr "s") (JStr "alice")); Resume; Resume; Resume;
            Connect "new"].

(** A host on which [javac], [gcc] and [g++] fail with a diagnostic and
    every other program prints [hi]. *)
Definition failing_compilers (command : string) : exec_outcome :=
  if String.prefix "javac" command || String.prefix "gcc" command
     || String.prefix "g++" command
  then mkOutcome (Some "Command failed") "" "error: expected ;"
  else mkOutcome None "hi" "".

Definition all_fine (command : string) : exec_outcome := mkOutcome None "hi" "".

End Samples.
Import Samples.

(** ** The REST view of the files and more vocabulary for schedules *)
Module Rest.

(** [GET /files/:sessionId]: the files its [HGETALL], issued in [st],
    reads and the handler answers with. *)
Definition get_files (sessionId : string) (st : server) : gmap string string :=
  hgetall (filesKey (JStr sessionId)) (store st).

(** The action stores or removes [field] of the hash [key]. *)
Definition touches_file (key field : string) (a : action) : bool :=
  sets_file key field a
  || match a with
     | Arrive _ _ (FileDelete sessionId filename) =>
         truthy filename
         && bool_decide (filesKey (dflt "default" sessionId) = key)
         && bool_decide (toArg filename = field)
     | _ => false
     end.

(** The request names the session [a] in its payload or its route. *)
Definition addressed (a : string) (act : action) : bool :=
  match act with
  | Arrive _ _ (Join sessionId _)
  | Arrive _ _ (FileUpdate sessionId _ _)
  | Arrive _ _ (FileCreate sessionId _ _)
  | Arrive _ _ (FileDelete sessionId _)
  | Arrive _ _ (ChatMsg sessionId _ _) => bool_decide (sessionId = JStr a)
  | HttpSave sessionId _ _ => bool_decide (sessionId = a)
  | _ => false
  end.

(** Every socket with a registered user is known, and while it is open it
    is in the room of the session it is registered for. *)
Definition well_bound (st : server) : Prop :=
  ∀ s sessionId userName,
    socketUser st !! s = Some (sessionId, userName) →
    match socks st !! s with
    | Some (Open rs) => sessionId ∈ rs
    | Some Closed => True
    | None => False
    end.

End Rest.
Import Rest.

(** ** More vocabulary for the [/run] endpoint *)
Module RunSpec.

(** The response the handler builds from the outcome of a process:
    [{ output: result.out, ok: result.ok }]. *)
Definition answer (o : exec_outcome) : response :=
  match err o with
  | Some message => mkResponse 200 (ResultBody (JStr (str_or (stderr o) message)) false)
  | None => mkResponse 200 (ResultBody (JStr (stdout o)) true)
  end.

(** The interpreted languages: the program that runs them and the name
    the source gets when the request names no file. *)
Definition interpreter (language : string) : option (string * string) :=
  if String.eqb language "python" then Some ("python", "main.py")
  else if String.eqb language "javascript" then Some ("node", "main.js")
  else if String.eqb language "node" then Some ("node", "main.js")
  else None.



(** A computation that has spawned no process when it throws. *)
Definition throws_early {A} (m : M A) : Prop :=
  ∀ log, ∃ ext, snd (m log) = log ++ ext
    ∧ ∀ e, fst (m log) = inr e → first_exec ext = None.

End RunSpec.
Import RunSpec.

(** ** The client's view ([App.js]) *)
Module ClientView.

(** [s.endsWith(suffix)] *)
Fixpoint ends_with (suffix s : string) : bool :=
  String.eqb s suffix
  || match s with
     | EmptyString => false
     | String _ s' => ends_with suffix s'
     end.

(** [autoSetLangFromFilename(fn)]: the language of the editor after the
    call, [language] being the one before.  A null file name behaves as
    the empty one. *)
Definition autoSetLangFromFilename (fn language : string) : string :=
  if String.eqb fn "" then language
  else if ends_with ".py" fn then "python"
  else if ends_with ".java" fn then "java"
  else if ends_with ".c" fn then "c"
  else if ends_with ".cpp" fn || ends_with ".cc" fn || ends_with ".cxx" fn then "cpp"
  else if ends_with ".html" fn then "html"
  else if ends_with ".js" fn then "javascript"
  else "javascript".

Definition mapLang (l : string) : string :=
  if String.eqb l "javascript" then "javascript"
  else if String.eqb l "python" then "python"
  else if String.eqb l "java" then "java"
  else if String.eqb l "c" then "c"
  else if String.eqb l "cpp" then "cpp"
  else if String.eqb l "html" then "html"
  else l.

(** The options of the language selector. *)
Definition selectable : list string :=
  ["javascript"; "python"; "java"; "cpp"; "c"; "html"].

(** [pushHistory]: the new item first, at most 200 kept. *)
Definition pushHistory {A} (item : A) (h : list A) : list A :=
  take 200 (item :: h).

(** The [chat:message] handler: the new message last, the last 300 kept. *)
Definition on_chat {A} (msg : A) (c : list A) : list A :=
  let l := c ++ [msg] in drop (length l - 300) l.

(** [Array.from(new Set(l))]: the first occurrence of each value, in order. *)
Definition set_of (l : list jsval) : list jsval :=
  fold_left (λ acc x, if decide (x ∈ acc) then acc else acc ++ [x]) l [].

(** The [user:join] and [user:left] handlers on the list of users. *)
Definition on_user_join (userName : jsval) (u : list jsval) : list jsval :=
  set_of (u ++ [userName]).

Definition on_user_left (userName : jsval) (u : list jsval) : list jsval :=
  filter (λ x, x ≠ userName) u.

End ClientView.
Import ClientView.

(** * Properties *)

(** ** The model at work *)

Example two_clients_events :
  outbox two_clients
  = [("a", SessionInit ∅ ["alice"]);
     ("b", SessionInit ∅ ["alice"; "bob"]);
     ("a", UserJoin (JStr "bob"))]
  ∧ pending two_clients = [].
Proof. vm_compute. split; reflexivity. Qed.

Example create_reaches_everyone :
  let st := run two_clients
              [Arrive 3 "a" (FileCreate (JStr "s") (JStr "f.js") JUndefined); Resume] in
  outbox st = outbox two_clients
              ++ [("a", FileCreated (JStr "f.js") (JStr ""));
                  ("b", FileCreated (JStr "f.js") (JStr ""))]
  ∧ stored st (JStr "s") "f.js" = Some "".
Proof. vm_compute. split; reflexivity. Qed.

Example leave_removes_name :
  let st := run two_clients [Arrive 3 "a" Disconnect; Resume] in
  outbox st = outbox two_clients ++ [("b", UserLeft (JStr "alice"))]
  ∧ smembers (usersKey (JStr "s")) (store st) = ["bob"].
Proof. vm_compute. split; reflexivity. Qed.

Example public_class_samples :
  public_class "import java.util.*; public   class  Foo_1 extends Bar {}" = Some "Foo_1"
  ∧ public_class "class A {} public class B{}" = Some "B"
  ∧ public_class "publicclass X" = None
  ∧ public_class "public class 9x" = None.
Proof. vm_compute. repeat split; reflexivity. Qed.

Example python_run :
  post_run (posix all_fine) (mkRequest JUndefined (JStr "python") JUndefined (JStr "print(1)")) []
  = (inl (mkResponse 200 (ResultBody (JStr "hi") true)),
     [MkDir "/srv/temp/default";
      WriteFile "/srv/temp/default/main.py" (JStr "print(1)");
      Exec ("python " +:+ quoted "/srv/temp/default/main.py") "/srv/temp/default" 15000]).
Proof. vm_compute. reflexivity. Qed.

Example html_echo :
  post_run (posix all_fine) (mkRequest (JStr "s") (JStr "html") JUndefined (JStr "<p>x</p>")) []
  = (inl (mkResponse 200 (ResultBody (JStr "<p>x</p>") true)), [MkDir "/srv/temp/s"]).
Proof. vm_compute. reflexivity. Qed.

(** ** The store *)
Section StoreFacts.
Implicit Types (r : redis) (key field value member : string).

Lemma hgetall_hset r key field value key' field' :
  hgetall key' (hset key field value r) !! field' =
  if decide (key = key' ∧ field = field') then Some value
  else hgetall key' r !! field'.
Proof.
  unfold hgetall, hset; simpl.
  destruct (decide (key = key')) as [->|Hk].
  - rewrite lookup_insert_eq; simpl.
    destruct (decide (field = field')) as [->|Hf].
    + rewrite lookup_insert_eq. by rewrite decide_True by auto.
    + rewrite lookup_insert_ne by done. by rewrite decide_False by tauto.
  - rewrite lookup_insert_ne by done. by rewrite decide_False by tauto.
Qed.

Lemma hgetall_hdel r key field key' field' :
  hgetall key' (hdel key field r) !! field' =
  if decide (key = key' ∧ field = field') then None
  else hgetall key' r !! field'.
Proof.
  unfold hdel. set (h := delete field (hgetall key r)).
  assert (Hh : ∀ f, h !! f = if decide (field = f) then None else hgetall key r !! f).
  { intros f. unfold h. destruct (decide (field = f)) as [->|].
    - apply lookup_delete_eq.
    - by apply lookup_delete_ne. }
  unfold hgetall at 1; simpl.
  destruct (decide (key = key')) as [->|Hk].
  - assert (Hl : default ∅ ((if decide (h = ∅) then delete key' (hashes r)
                             else <[key' := h]> (hashes r)) !! key') = h).
    { destruct (decide (h = ∅)) as [He|He].
      - rewrite lookup_delete_eq. by rewrite He.
      - by rewrite lookup_insert_eq. }
    rewrite Hl, Hh.
    destruct (decide (field = field')) as [->|Hf].
    + by rewrite decide_True by auto.
    + by rewrite decide_False by tauto.
  - rewrite (decide_False (P := key = key' ∧ field = field')) by tauto.
    destruct (decide (h = ∅)).
    + by rewrite lookup_delete_ne.
    + by rewrite lookup_insert_ne.
Qed.

Lemma hgetall_sadd r key member key' : hgetall key' (sadd key member r) = hgetall key' r.
Proof. reflexivity. Qed.

Lemma hgetall_srem r key member key' : hgetall key' (srem key member r) = hgetall key' r.
Proof. reflexivity. Qed.

Lemma smembers_set_hset r key field value key' :
  smembers_set key' (hset key field value r) = smembers_set key' r.
Proof. reflexivity. Qed.

Lemma smembers_set_hdel r key field key' :
  smembers_set key' (hdel key field r) = smembers_set key' r.
Proof. reflexivity. Qed.

Lemma smembers_set_sadd r key member key' :
  smembers_set key' (sadd key member r) =
  if decide (key = key') then {[member]} ∪ smembers_set key' r
  else smembers_set key' r.
Proof.
  unfold smembers_set, sadd; simpl.
  destruct (decide (key = key')) as [->|Hk].
  - by rewrite lookup_insert_eq.
  - by rewrite lookup_insert_ne.
Qed.

Lemma smembers_set_srem r key member key' :
  smembers_set key' (srem key member r) =
  if decide (key = key') then smembers_set key' r ∖ {[member]}
  else smembers_set key' r.
Proof.
  unfold srem. set (s := smembers_set key r ∖ {[member]}).
  unfold smembers_set at 1; simpl.
  destruct (decide (key = key')) as [->|Hk].
  - destruct (decide (s = ∅)) as [He|He].
    + rewrite lookup_delete_eq. simpl. by rewrite <- He.
    + by rewrite lookup_insert_eq.
  - destruct (decide (s = ∅)).
    + by rewrite lookup_delete_ne.
    + by rewrite lookup_insert_ne.
Qed.

Lemma elem_of_smembers r key member :
  member ∈ smembers key r ↔ member ∈ smembers_set key r.
Proof. unfold smembers. apply elem_of_elements. Qed.

End StoreFacts.

(** ** The synchronizer *)
Section SyncFacts.
Implicit Types (st : server) (k : cont) (a : action) (s r : sid).

Lemma elem_of_members r room st : r ∈ members room st ↔ in_session r room st.
Proof.
  unfold members, in_session.
  rewrite elem_of_elements, elem_of_dom. split.
  - intros [x Hx]. apply map_lookup_filter_Some in Hx as [Hl Hin].
    unfold sock_in in Hin; simpl in Hin. destruct x as [rs|]; [eauto | done].
  - intros (rs & Hl & Hin). exists (Open rs).
    apply map_lookup_filter_Some. split; [done | exact Hin].
Qed.

Lemma resume_store k st : store (resume k st) = store st.
Proof.
  destruct k; simpl; unfold socket_emit; try destruct (is_open _ _); reflexivity.
Qed.

Lemma resume_socks k st : socks (resume k st) = socks st.
Proof.
  destruct k; simpl; unfold socket_emit; try destruct (is_open _ _); reflexivity.
Qed.

Lemma resume_pending k st : ∃ Q, pending (resume k st) = pending st ++ Q.
Proof.
  destruct k; simpl; unfold socket_emit; try destruct (is_open _ _); simpl;
    first [ by eexists [_] | by (exists []; rewrite app_nil_r) ].
Qed.

Lemma step_resume_store st : store (step st Resume) = store st.
Proof. simpl. destruct (pending st); [done | by rewrite resume_store]. Qed.

Lemma step_resume_socks st : socks (step st Resume) = socks st.
Proof. simpl. destruct (pending st); [done | by rewrite resume_socks]. Qed.

Lemma dispatch_pending now s e st : ∃ Q, pending (dispatch now s e st) = pending st ++ Q.
Proof.
  destruct e; simpl;
    unfold on_join, on_file_update, on_file_create, on_file_delete,
      on_chat_message, on_disconnect, socket_join; simpl.
  - destruct (socks st !! s) as [[|]|]; by eexists [_].
  - destruct (truthy _); simpl; [by eexists [_] | by (exists []; rewrite app_nil_r)].
  - destruct (truthy _); simpl; [by eexists [_] | by (exists []; rewrite app_nil_r)].
  - destruct (truthy _); simpl; [by eexists [_] | by (exists []; rewrite app_nil_r)].
  - exists []. by rewrite app_nil_r.
  - destruct (socketUser st !! s) as [[? ?]|]; simpl;
      [by eexists [_] | by (exists []; rewrite app_nil_r)].
Qed.

(** An action other than a resumption only appends to the queue. *)
Lemma step_pending st a : a ≠ Resume → ∃ Q, pending (step st a) = pending st ++ Q.
Proof.
  intros Ha. destruct a; simpl; try done.
  - destruct (socks st !! s); exists []; by rewrite app_nil_r.
  - destruct (is_open s st); [apply dispatch_pending | exists []; by rewrite app_nil_r].
  - unfold on_save. destruct (_ || _); simpl;
      [exists []; by rewrite app_nil_r | by eexists [_]].
Qed.

Lemma step_resume_pending st k q :
  pending st = k :: q → ∃ Q, pending (step st Resume) = q ++ Q.
Proof. intros H. simpl. rewrite H. apply (resume_pending k (set_pending q st)). Qed.

(** The queue is first-in first-out: after [n] resumptions the first [n]
    handlers that were waiting are gone and the rest still wait, in
    order, ahead of any handler suspended since. *)
Lemma pending_run mid : ∀ st,
  resumes mid ≤ length (pending st) →
  ∃ Q, pending (run st mid) = drop (resumes mid) (pending st) ++ Q.
Proof.
  induction mid as [|a mid IH]; intros st Hle.
  - exists []. simpl. by rewrite app_nil_r.
  - destruct (decide (a = Resume)) as [->|Hne].
    + simpl in Hle. destruct (pending st) as [|k q] eqn:Hp; [simpl in Hle; lia|].
      destruct (step_resume_pending st k q Hp) as [Q1 HQ1].
      simpl in Hle.
      destruct (IH (step st Resume)) as [Q2 HQ2].
      { rewrite HQ1, length_app. lia. }
      exists (Q1 ++ Q2). change (run st (Resume :: mid)) with (run (step st Resume) mid).
      rewrite HQ2, HQ1. simpl resumes. simpl drop.
      rewrite drop_app_le by lia. by rewrite <- app_assoc.
    + destruct (step_pending st a Hne) as [Q1 HQ1].
      assert (Hr : resumes (a :: mid) = resumes mid) by (destruct a; done).
      rewrite Hr in *.
      destruct (IH (step st a)) as [Q2 HQ2].
      { rewrite HQ1, length_app. lia. }
      exists (Q1 ++ Q2). change (run st (a :: mid)) with (run (step st a) mid).
      rewrite HQ2, HQ1. rewrite drop_app_le by lia. by rewrite <- app_assoc.
Qed.

(** The handler that suspended last is first in the queue when the reply
    to its command arrives. *)
Lemma until_reply_head st P k mid :
  pending st = P ++ [k] → until_reply st mid →
  ∃ Q, pending (run st mid) = k :: Q.
Proof.
  unfold until_reply. intros Hp Hu.
  rewrite Hp, length_app in Hu. simpl in Hu.
  destruct (pending_run mid st) as [Q HQ]; [rewrite Hp, length_app; simpl; lia|].
  exists Q. rewrite HQ, Hp.
  rewrite drop_app_length' by lia. done.
Qed.

End SyncFacts.

Section FileFacts.
Implicit Types (st : server) (a : action) (s r : sid).

Lemma step_open_arrive st now s e :
  is_open s st = true → step st (Arrive now s e) = dispatch now s e st.
Proof. intros H. simpl. by rewrite H. Qed.

Lemma step_file_update st now s sessionId filename content :
  is_open s st = true → truthy filename = true →
  step st (Arrive now s (FileUpdate sessionId filename content)) =
  await (KUpdated s (dflt "default" sessionId) filename content)
    (set_store (hset (filesKey (dflt "default" sessionId)) (toArg filename)
                     (toArg content) (store st)) st).
Proof.
  intros Ho Ht. rewrite step_open_arrive by done. simpl.
  unfold on_file_update. by rewrite Ht.
Qed.

(** Only the arrival of a request writes to the store; a request that
    does not store the file again leaves a missing file missing. *)
Lemma step_keeps_missing st a key field :
  sets_file key field a = false →
  hgetall key (store st) !! field = None →
  hgetall key (store (step st a)) !! field = None.
Proof.
  intros Hs Hn. destruct a as [s|now s e|sessionId filename content|].
  - simpl. by destruct (socks st !! s).
  - simpl. destruct (is_open s st); [|done].
    destruct e as [sessionId userName|sessionId filename content
                  |sessionId filename content|sessionId filename
                  |sessionId userName text|]; simpl in *.
    + unfold on_join, socket_join. by destruct (socks st !! s) as [[|]|].
    + unfold on_file_update. destruct (truthy filename); simpl in *; [|done].
      rewrite hgetall_hset. destruct (decide (_ ∧ _)) as [[Hk Hf]|]; [|done].
      by rewrite !bool_decide_eq_true_2 in Hs.
    + unfold on_file_create. destruct (truthy filename); simpl in *; [|done].
      rewrite hgetall_hset. destruct (decide (_ ∧ _)) as [[Hk Hf]|]; [|done].
      by rewrite !bool_decide_eq_true_2 in Hs.
    + unfold on_file_delete. destruct (truthy filename); simpl in *; [|done].
      rewrite hgetall_hdel. by destruct (decide (_ ∧ _)).
    + done.
    + unfold on_disconnect; simpl.
      by destruct (socketUser st !! s) as [[? ?]|].
  - simpl in *. unfold on_save.
    destruct (truthy filename); simpl in *; [|done].
    destruct (bool_decide (content = _ ∨ _)); simpl in *; [done|].
    rewrite hgetall_hset. destruct (decide (_ ∧ _)) as [[Hk Hf]|]; [|done].
    by rewrite !bool_decide_eq_true_2 in Hs.
  - by rewrite step_resume_store.
Qed.

Lemma run_keeps_missing sched : ∀ st key field,
  forallb (λ a, negb (sets_file key field a)) sched = true →
  hgetall key (store st) !! field = None →
  hgetall key (store (run st sched)) !! field = None.
Proof.
  induction sched as [|a sched IH]; intros st key field Hs Hn; [done|].
  simpl in Hs. apply andb_true_iff in Hs as [Ha Hs].
  apply negb_true_iff in Ha.
  change (run st (a :: sched)) with (run (step st a) sched).
  apply IH; [done|]. by apply step_keeps_missing.
Qed.

Lemma updates_none_store sessionId filename sched :
  updates_in_order sessionId filename sched [] →
  ∀ st, store (run st sched) = store st.
Proof.
  intros H. remember [] as os eqn:Hos.
  induction H as [|sched os H IH|]; intros st; [done| |done].
  change (run st (Resume :: sched)) with (run (step st Resume) sched).
  rewrite IH by done. apply step_resume_store.
Qed.

End FileFacts.

(** ** Claims about the synchronizer *)

(** C9.  A [file:update], [file:create] or [file:delete] whose filename is
    empty or missing (or any other falsy value) is dropped: the server is
    left exactly as it was, so the stored files are unchanged, no event is
    sent and no handler is left waiting. *)
Theorem empty_filename_dropped (st : server) (now : Z) (s : sid)
    (sessionId filename content : jsval) :
  truthy filename = false →
  step st (Arrive now s (FileUpdate sessionId filename content)) = st
  ∧ step st (Arrive now s (FileCreate sessionId filename content)) = st
  ∧ step st (Arrive now s (FileDelete sessionId filename)) = st.
Proof.
  intros Hf. simpl.
  unfold on_file_update, on_file_create, on_file_delete.
  rewrite Hf. simpl. by destruct (is_open s st).
Qed.

Lemma empty_filename_dropped_witness :
  step two_clients (Arrive 3 "a" (FileUpdate (JStr "s") (JStr "") (JStr "x"))) = two_clients
  ∧ step two_clients (Arrive 3 "a" (FileCreate (JStr "s") (JStr "") (JStr "x"))) = two_clients
  ∧ step two_clients (Arrive 3 "a" (FileDelete (JStr "s") (JStr ""))) = two_clients.
Proof. apply (empty_filename_dropped two_clients 3 "a" (JStr "s") (JStr "") (JStr "x")). reflexivity. Defined.

Lemma elem_of_broadcast (ev : server_event) (l : list sid) (r : sid) (ev' : server_event) :
  (r, ev') ∈ map (λ r, (r, ev)) l ↔ ev' = ev ∧ r ∈ l.
Proof.
  induction l as [|x l IH]; simpl.
  - split; [intros H; by apply elem_of_nil in H | intros [_ H]; by apply elem_of_nil in H].
  - rewrite !elem_of_cons, IH. split.
    + intros [[= -> ->]|[-> H]]; auto.
    + intros [-> [->|H]]; auto.
Qed.

(** C5, at an input where it fails: alice sends an empty text, and the
    server relays it to both connections of the session. *)
Lemma empty_chat_is_relayed :
  outbox (step two_clients (Arrive 7 "a" (ChatMsg (JStr "s") (JStr "alice") (JStr ""))))
  = outbox two_clients ++ [("a", ChatMessage (JStr "alice") (JStr "") 7);
                           ("b", ChatMessage (JStr "alice") (JStr "") 7)].
Proof. vm_compute. reflexivity. Qed.

(** C5, amended.  The server relays every [chat:message] it receives,
    whatever its text, the empty text included, to all connections of the
    session, stamped with the server's clock, and stores nothing.  The empty
    text is stopped before it is sent: the client's [sendChat] emits nothing
    for it. *)
Theorem chat_relayed_to_session (st : server) (now : Z) (s : sid)
    (sessionId userName text : jsval) :
  is_open s st = true →
  let st' := step st (Arrive now s (ChatMsg sessionId userName text)) in
  (∃ sent, outbox st' = outbox st ++ sent
     ∧ ∀ r ev, (r, ev) ∈ sent ↔
         ev = ChatMessage userName text now
         ∧ in_session r (dflt "default" sessionId) st)
  ∧ store st' = store st
  ∧ Client.sendChat sessionId userName text =
    if truthy text then [ChatMsg sessionId userName text] else [].
Proof.
  intros Ho st'. subst st'. rewrite step_open_arrive by done. simpl.
  split; [|split].
  - eexists. split; [reflexivity|].
    intros r ev. rewrite elem_of_broadcast. by rewrite elem_of_members.
  - reflexivity.
  - unfold Client.sendChat. by destruct (truthy text).
Qed.

Lemma chat_relayed_to_session_witness :
  let st' := step two_clients (Arrive 7 "a" (ChatMsg (JStr "s") (JStr "alice") (JStr "hello"))) in
  (∃ sent, outbox st' = outbox two_clients ++ sent
     ∧ ∀ r ev, (r, ev) ∈ sent ↔
         ev = ChatMessage (JStr "alice") (JStr "hello") 7
         ∧ in_session r (dflt "default" (JStr "s")) two_clients)
  ∧ store st' = store two_clients
  ∧ Client.sendChat (JStr "s") (JStr "alice") (JStr "hello") =
    if truthy (JStr "hello") then [ChatMsg (JStr "s") (JStr "alice") (JStr "hello")] else [].
Proof.
  apply (chat_relayed_to_session two_clients 7 "a" (JStr "s") (JStr "alice") (JStr "hello")).
  reflexivity.
Defined.

(** C1.  When the synchronizer handles [file:update] requests for one
    file of one session in the order [os], resuming suspended handlers at
    any points in between, the store ends up holding the content of the
    last request: every request overwrites, none is compared with what is
    stored and none is rejected.  The store keeps the content as the string
    [toArg content], which is the content itself when it is a string. *)
Theorem last_write_wins (sessionId filename : jsval) (sched : list action)
    (os : list (sid * jsval)) (st : server) (s : sid) (content : jsval) :
  updates_in_order sessionId filename sched os →
  truthy filename = true →
  (∀ s' c', (s', c') ∈ os → is_open s' st = true) →
  last os = Some (s, content) →
  stored (run st sched) (dflt "default" sessionId) (toArg filename)
  = Some (toArg content)
  ∧ (∀ text, content = JStr text →
       stored (run st sched) (dflt "default" sessionId) (toArg filename) = Some text).
Proof.
  intros Hu Ht Hopen Hlast.
  cut (stored (run st sched) (dflt "default" sessionId) (toArg filename)
       = Some (toArg content)).
  { intros H. split; [done|]. intros text ->. exact H. }
  revert st Hopen Hlast.
  induction Hu as [|sched os Hu IH|now s0 c0 sched os Hu IH]; intros st Hopen Hlast.
  - done.
  - change (run st (Resume :: sched)) with (run (step st Resume) sched).
    apply IH; [|done].
    intros s' c' Hin. unfold is_open. rewrite step_resume_socks.
    by apply (Hopen s' c').
  - change (run st (Arrive now s0 (FileUpdate sessionId filename c0) :: sched))
      with (run (step st (Arrive now s0 (FileUpdate sessionId filename c0))) sched).
    assert (Ho : is_open s0 st = true) by (apply (Hopen s0 c0); left).
    rewrite step_file_update by done.
    destruct os as [|o os'].
    + simpl in Hlast. injection Hlast as -> ->.
      unfold stored. rewrite (updates_none_store _ _ _ Hu). simpl.
      rewrite hgetall_hset. by rewrite decide_True.
    + apply IH.
      * intros s' c' Hin. unfold is_open; simpl.
        apply (Hopen s' c'). by right.
      * exact Hlast.
Qed.

Lemma last_write_wins_witness :
  stored (run two_clients
            [Arrive 3 "a" (FileUpdate (JStr "s") (JStr "f.js") (JStr "one"));
             Arrive 4 "b" (FileUpdate (JStr "s") (JStr "f.js") (JStr "two"));
             Resume;
             Arrive 5 "a" (FileUpdate (JStr "s") (JStr "f.js") (JStr "three"));
             Resume; Resume])
         (dflt "default" (JStr "s")) (toArg (JStr "f.js"))
  = Some (toArg (JStr "three"))
  ∧ (∀ text, JStr "three" = JStr text →
       stored (run two_clients
            [Arrive 3 "a" (FileUpdate (JStr "s") (JStr "f.js") (JStr "one"));
             Arrive 4 "b" (FileUpdate (JStr "s") (JStr "f.js") (JStr "two"));
             Resume;
             Arrive 5 "a" (FileUpdate (JStr "s") (JStr "f.js") (JStr "three"));
             Resume; Resume])
         (dflt "default" (JStr "s")) (toArg (JStr "f.js")) = Some text).
Proof.
  apply (last_write_wins (JStr "s") (JStr "f.js") _
           [("a", JStr "one"); ("b", JStr "two"); ("a", JStr "three")]
           two_clients "a" (JStr "three")).
  - repeat constructor.
  - reflexivity.
  - intros s' c' Hin.
    repeat (apply elem_of_cons in Hin as [[= -> ->]|Hin]; [reflexivity|]).
    by apply elem_of_nil in Hin.
  - reflexivity.
Defined.

Section JoinFacts.
Implicit Types (st : server) (a : action) (s r j : sid).

Lemma run_app st l1 l2 : run st (l1 ++ l2) = run (run st l1) l2.
Proof. apply fold_left_app. Qed.

Lemma run_cons st a l : run st (a :: l) = run (step st a) l.
Proof. reflexivity. Qed.

Lemma step_join st now j sessionId userName :
  is_open j st = true →
  let room := dflt "default" sessionId in
  let name := dflt "Anonymous" userName in
  let st' := step st (Arrive now j (Join sessionId userName)) in
  pending st' = pending st ++ [KJoinFiles j room name]
  ∧ store st' = sadd (usersKey room) (toArg name) (store st).
Proof.
  intros Ho room name st'. subst st'. rewrite step_open_arrive by done.
  simpl. unfold on_join, socket_join.
  by destruct (socks st !! j) as [[|]|].
Qed.

(** The [join] handler across its three suspensions: the files of
    [session:init] are the ones read when the first reply arrives, the
    users the ones read when the second arrives. *)
Lemma join_chain st now j sessionId userName mid1 mid2 mid3 :
  is_open j st = true →
  let room := dflt "default" sessionId in
  let name := dflt "Anonymous" userName in
  let a := step st (Arrive now j (Join sessionId userName)) in
  until_reply a mid1 →
  let b := step (run a mid1) Resume in
  until_reply b mid2 →
  let c := step (run b mid2) Resume in
  until_reply c mid3 →
  let d := run c mid3 in
  is_open j d = true →
  outbox (step d Resume) =
  outbox d
  ++ (j, SessionInit (hgetall (filesKey room) (store (run a mid1)))
                     (smembers (usersKey room) (store (run b mid2))))
     :: map (λ r, (r, UserJoin name)) (filter (λ r, r ≠ j) (members room d)).
Proof.
  intros Ho room name a U1 b U2 c U3 d Hd.
  destruct (step_join st now j sessionId userName Ho) as [Hpa _].
  fold a room name in Hpa.
  destruct (until_reply_head a _ _ mid1 Hpa U1) as [Q1 HQ1].
  assert (Hpb : pending b = Q1 ++ [KJoinUsers j room name
                   (hgetall (filesKey room) (store (run a mid1)))]).
  { unfold b. simpl. by rewrite HQ1. }
  destruct (until_reply_head b _ _ mid2 Hpb U2) as [Q2 HQ2].
  assert (Hpc : pending c = Q2 ++ [KJoinEmit j room name
                   (hgetall (filesKey room) (store (run a mid1)))
                   (smembers (usersKey room) (store (run b mid2)))]).
  { unfold c. simpl. by rewrite HQ2. }
  destruct (until_reply_head c _ _ mid3 Hpc U3) as [Q3 HQ3].
  fold d in HQ3. simpl. rewrite HQ3. simpl.
  unfold socket_emit.
  replace (is_open j (set_pending Q3 d)) with (is_open j d) by reflexivity.
  rewrite Hd. simpl. by rewrite <- app_assoc.
Qed.

Lemma step_keeps_member st a key member :
  removes key member st a = false →
  member ∈ smembers_set key (store st) →
  member ∈ smembers_set key (store (step st a)).
Proof.
  intros Hr Hin. destruct a as [s|now s e|sid0 fn ct|].
  - simpl. by destruct (socks st !! s).
  - simpl in *. destruct (is_open s st); [|done].
    destruct e as [sid0 un|sid0 fn ct|sid0 fn ct|sid0 fn|sid0 un tx|]; simpl in *.
    + unfold on_join, socket_join.
      assert (member ∈ smembers_set key
                (sadd (usersKey (dflt "default" sid0))
                      (toArg (dflt "Anonymous" un)) (store st))).
      { rewrite smembers_set_sadd. case_decide; set_solver. }
      by destruct (socks st !! s) as [[|]|].
    + unfold on_file_update. by destruct (truthy fn).
    + unfold on_file_create. by destruct (truthy fn).
    + unfold on_file_delete. by destruct (truthy fn).
    + done.
    + unfold on_disconnect; simpl.
      destruct (socketUser st !! s) as [[sid0 un]|]; simpl; [|done].
      rewrite smembers_set_srem. case_decide as Hk; [|done].
      apply elem_of_difference. split; [done|].
      intros Heq%elem_of_singleton.
      rewrite bool_decide_eq_true_2 in Hr by done.
      rewrite bool_decide_eq_true_2 in Hr by done. done.
  - simpl. unfold on_save. destruct (_ || _); done.
  - by rewrite step_resume_store.
Qed.

Lemma run_keeps_member sched : ∀ st key member,
  undisturbed key member st sched = true →
  member ∈ smembers_set key (store st) →
  member ∈ smembers_set key (store (run st sched)).
Proof.
  induction sched as [|a sched IH]; intros st key member Hu Hin; [done|].
  simpl in Hu. apply andb_true_iff in Hu as [Ha Hu].
  apply negb_true_iff in Ha. rewrite run_cons.
  apply IH; [done|]. by apply step_keeps_member.
Qed.

End JoinFacts.



(** C8.  After a [file:delete] of a file, a [join] of the same session
    gets a [session:init] whose files do not contain it, provided no
    request stores the file again ([file:create], [file:update] or a REST
    save) between the deletion and the moment the join reads the files.
    The server may do anything else meanwhile. *)
Theorem delete_then_join_snapshot (st : server) (now : Z) (s : sid)
    (sessionId filename : jsval) (mid0 : list action)
    (now' : Z) (j : sid) (userName : jsval) (mid1 mid2 mid3 : list action) :
  is_open s st = true →
  truthy filename = true →
  let room := dflt "default" sessionId in
  let st1 := step st (Arrive now s (FileDelete sessionId filename)) in
  let st2 := run st1 mid0 in
  is_open j st2 = true →
  let a := step st2 (Arrive now' j (Join sessionId userName)) in
  until_reply a mid1 →
  let b := step (run a mid1) Resume in
  until_reply b mid2 →
  let c := step (run b mid2) Resume in
  until_reply c mid3 →
  let d := run c mid3 in
  forallb (λ x, negb (sets_file (filesKey room) (toArg filename) x)) (mid0 ++ mid1) = true →
  is_open j d = true →
  ∃ files users rest,
    outbox (step d Resume) = outbox d ++ (j, SessionInit files users) :: rest
    ∧ files !! toArg filename = None.
Proof.
  intros Ho Ht room st1 st2 Hj a U1 b U2 c U3 d Hw Hd.
  rewrite forallb_app in Hw. apply andb_true_iff in Hw as [Hw0 Hw1].
  do 3 eexists. split.
  - apply (join_chain st2 now' j sessionId userName mid1 mid2 mid3); done.
  - apply run_keeps_missing; [done|].
    destruct (step_join st2 now' j sessionId userName Hj) as [_ Hs].
    unfold a. rewrite Hs, hgetall_sadd.
    apply run_keeps_missing; [done|].
    unfold st1. rewrite step_open_arrive by done. simpl.
    unfold on_file_delete. rewrite Ht. simpl.
    rewrite hgetall_hdel. by rewrite decide_True.
Qed.

Lemma delete_then_join_snapshot_witness :
  let st := run two_clients
              [Arrive 3 "a" (FileCreate (JStr "s") (JStr "f.js") (JStr "x")); Resume;
               Connect "c"] in
  let st1 := step st (Arrive 4 "a" (FileDelete (JStr "s") (JStr "f.js"))) in
  let st2 := run st1 [Arrive 5 "b" (FileUpdate (JStr "s") (JStr "g.js") (JStr "y"))] in
  let a := step st2 (Arrive 6 "c" (Join (JStr "s") (JStr "carol"))) in
  let b := step (run a [Resume; Resume]) Resume in
  let c := step (run b []) Resume in
  let d := run c [] in
  ∃ files users rest,
    outbox (step d Resume) = outbox d ++ ("c", SessionInit files users) :: rest
    ∧ files !! toArg (JStr "f.js") = None.
Proof.
  apply (delete_then_join_snapshot _ 4 "a" (JStr "s") (JStr "f.js")
           [Arrive 5 "b" (FileUpdate (JStr "s") (JStr "g.js") (JStr "y"))]
           6 "c" (JStr "carol") [Resume; Resume] [] []);
    reflexivity.
Defined.

(** C10, at an input where it fails: alice's page reloads; her new socket
    joins, and her old socket disconnects while the join waits for the
    store.  The [session:init] sent to the new socket lists no user at
    all. *)
Lemma join_misses_own_name :
  outbox (run refreshing
            [Arrive 2 "new" (Join (JStr "s") (JStr "alice"));
             Arrive 3 "old" Disconnect;
             Resume; Resume; Resume; Resume])
  = outbox refreshing
    ++ [("new", UserLeft (JStr "alice")); ("new", SessionInit ∅ [])].
Proof. vm_compute. reflexivity. Qed.

(** C10, amended.  The users of [session:init] contain the name of the
    joining user, provided that no connection registered under the same
    name in the same session disconnects between the moment the join adds
    the name and the moment it reads the members; in particular whenever
    nothing else is handled while the join waits for the store. *)
Theorem join_sees_own_name (st : server) (now : Z) (j : sid)
    (sessionId userName : jsval) (mid1 mid2 mid3 : list action) :
  is_open j st = true →
  let room := dflt "default" sessionId in
  let name := toArg (dflt "Anonymous" userName) in
  let a := step st (Arrive now j (Join sessionId userName)) in
  until_reply a mid1 →
  let b := step (run a mid1) Resume in
  until_reply b mid2 →
  let c := step (run b mid2) Resume in
  until_reply c mid3 →
  let d := run c mid3 in
  undisturbed (usersKey room) name a (mid1 ++ Resume :: mid2) = true →
  is_open j d = true →
  ∃ files users rest,
    outbox (step d Resume) = outbox d ++ (j, SessionInit files users) :: rest
    ∧ name ∈ users.
Proof.
  intros Ho room name a U1 b U2 c U3 d Hu Hd.
  do 3 eexists. split.
  - apply (join_chain st now j sessionId userName mid1 mid2 mid3); done.
  - apply elem_of_smembers.
    assert (Hrun : run b mid2 = run a (mid1 ++ Resume :: mid2))
      by (by rewrite run_app, run_cons).
    change (name ∈ smembers_set (usersKey room) (store (run b mid2))).
    rewrite Hrun. apply run_keeps_member; [done|].
    destruct (step_join st now j sessionId userName Ho) as [_ Hs].
    unfold a. rewrite Hs, smembers_set_sadd. rewrite decide_True by done.
    set_solver.
Qed.

Lemma join_sees_own_name_witness :
  let a := step refreshing (Arrive 2 "new" (Join (JStr "s") (JStr "alice"))) in
  let b := step (run a [Arrive 3 "old" (ChatMsg (JStr "s") (JStr "alice") (JStr "bye"))]) Resume in
  let c := step (run b []) Resume in
  let d := run c [Arrive 4 "old" Disconnect] in
  ∃ files users rest,
    outbox (step d Resume) = outbox d ++ ("new", SessionInit files users) :: rest
    ∧ toArg (dflt "Anonymous" (JStr "alice")) ∈ users.
Proof.
  apply (join_sees_own_name refreshing 2 "new" (JStr "s") (JStr "alice")
           [Arrive 3 "old" (ChatMsg (JStr "s") (JStr "alice") (JStr "bye"))] []
           [Arrive 4 "old" Disconnect]);
    reflexivity.
Defined.

(** ** The [/run] endpoint *)
Section RunFacts.
Variable w : world.

Lemma responds_ret {A} (P : A → Prop) a : P a → responds P (ret a).
Proof. intros H log a' log' [= <- _]. exact H. Qed.

Lemma responds_throw {A} (P : A → Prop) e : responds P (throw e).
Proof. intros log a log' [=]. Qed.

Lemma responds_bind {A B} (P : B → Prop) (m : M A) (k : A → M B) :
  (∀ a, responds P (k a)) → responds P (bind m k).
Proof.
  intros H log b log'. unfold bind.
  destruct (m log) as [[a|e] l]; [apply H | intros [=]].
Qed.

Lemma responds_try_catch {A} (P : A → Prop) (m : M A) (h : exn → M A) :
  responds P m → (∀ e, responds P (h e)) → responds P (try_catch m h).
Proof.
  intros Hm Hh log a log'. unfold try_catch.
  destruct (m log) as [[a'|e] l] eqn:E.
  - intros [= <- <-]. by apply (Hm log a' l).
  - apply Hh.
Qed.

Lemma run_language_200 sessionTemp language filename code :
  responds (λ r, status r = 200) (run_language w sessionTemp language filename code).
Proof.
  unfold run_language, res_json.
  repeat first
    [ apply responds_ret; reflexivity
    | apply responds_bind; intros ?
    | match goal with |- responds _ (if ?b then _ else _) => destruct b end ].
Qed.

Lemma post_run_valid req :
  truthy (language req) && truthy (code req) = true →
  post_run w req =
  (sessionTemp <- join_name w (BASE_TEMP w) (dflt "default" (sessionId req)) ;;
   ex <- existsSync w sessionTemp ;;
   (if ex then ret tt else mkdirSync w sessionTemp) ;;;
   try_catch
     (run_language w sessionTemp (language req) (filename req) (code req))
     (fun e =>
        ret (mkResponse 500
               (ResultBody (JStr ("Server error: " +:+ message_of e)) false)))).
Proof.
  intros H. apply andb_true_iff in H as [Hl Hc].
  unfold post_run. by rewrite Hl, Hc.
Qed.

Lemma added_app (log ext : list effect) : added log (log ++ ext) = ext.
Proof. unfold added. by rewrite drop_app_length. Qed.

Lemma first_exec_app (ext1 ext2 : list effect) :
  first_exec ext1 = None →
  first_exec (ext1 ++ ext2) =
  match first_exec ext2 with
  | Some (pre, x, rest) => Some (ext1 ++ pre, x, rest)
  | None => None
  end.
Proof.
  induction ext1 as [|e ext1 IH]; simpl.
  - intros _. by destruct (first_exec ext2) as [[[? ?] ?]|].
  - destruct e; try done;
      (destruct (first_exec ext1) as [[[? ?] ?]|] eqn:E; [done|];
       intros _; rewrite IH by done;
       by destruct (first_exec ext2) as [[[? ?] ?]|]).
Qed.

Lemma quiet_ret {A} (a : A) : quiet (ret a).
Proof. intros log. exists []. by rewrite app_nil_r. Qed.

Lemma quiet_throw {A} e : quiet (@throw A e).
Proof. intros log. exists []. by rewrite app_nil_r. Qed.

Lemma quiet_bind {A B} (m : M A) (k : A → M B) :
  quiet m → (∀ a, quiet (k a)) → quiet (bind m k).
Proof.
  intros Hm Hk log. unfold bind.
  destruct (Hm log) as (ext1 & E1 & F1).
  destruct (m log) as [[a|e] l]; simpl in E1; subst l.
  - destruct (Hk a (log ++ ext1)) as (ext2 & E2 & F2).
    exists (ext1 ++ ext2). rewrite E2, app_assoc. split; [done|].
    by rewrite first_exec_app, F2.
  - by exists ext1.
Qed.

Lemma quiet_existsSync p : quiet (existsSync w p).
Proof. intros log. exists []. by rewrite app_nil_r. Qed.

Lemma quiet_mkdirSync p : quiet (mkdirSync w p).
Proof.
  intros log. unfold mkdirSync, fs_call.
  destruct (fs_fault w log _); [exists []; by rewrite app_nil_r | by exists [MkDir p]].
Qed.

Lemma quiet_writeFileSync p data : quiet (writeFileSync w p data).
Proof.
  intros log. unfold writeFileSync, fs_call.
  destruct (fs_fault w log _);
    [exists []; by rewrite app_nil_r | by exists [WriteFile p data]].
Qed.

Lemma quiet_join_name folder name : quiet (join_name w folder name).
Proof. destruct name; first [apply quiet_ret | apply quiet_throw]. Qed.

Lemma quiet_ensure_dir (ex : bool) p : quiet (if ex then ret tt else mkdirSync w p).
Proof. destruct ex; [apply quiet_ret | apply quiet_mkdirSync]. Qed.

Lemma quiet_writeTempFile folder filename content :
  quiet (writeTempFile w folder filename content).
Proof.
  unfold writeTempFile.
  apply quiet_bind; [apply quiet_existsSync | intros ex].
  apply quiet_bind; [apply quiet_ensure_dir | intros _].
  apply quiet_bind; [apply quiet_join_name | intros p].
  apply quiet_bind; [apply quiet_writeFileSync | intros _].
  apply quiet_ret.
Qed.

Lemma quiet_className filename code : quiet (className w filename code).
Proof.
  unfold className.
  destruct code; try apply quiet_throw.
  destruct (public_class _); [apply quiet_ret|].
  destruct (truthy filename); [|apply quiet_ret].
  destruct filename; first [apply quiet_ret | apply quiet_throw].
Qed.

Lemma short_circuits_bind {A} language (m : M A) (k : A → M response) :
  quiet m → (∀ a, short_circuits w language (k a)) →
  short_circuits w language (bind m k).
Proof.
  intros Hm Hk log. unfold bind.
  destruct (Hm log) as (ext1 & E1 & F1).
  destruct (m log) as [[a|e] l]; simpl in E1; subst l.
  - destruct (Hk a (log ++ ext1)) as (ext2 & E2 & H2).
    exists (ext1 ++ ext2). rewrite E2, app_assoc. split; [done|].
    rewrite first_exec_app by done.
    destruct (first_exec ext2) as [[[pre [[command cwd] t]] rest]|]; [|done].
    by rewrite app_assoc.
  - exists ext1. split; [done|]. rewrite F1. by intros r [=].
Qed.

Lemma short_circuits_try_catch language (m : M response) (h : exn → string) :
  short_circuits w language m →
  short_circuits w language
    (try_catch m (fun e => ret (mkResponse 500 (ResultBody (JStr (h e)) false)))).
Proof.
  intros Hm log. unfold try_catch.
  destruct (Hm log) as (ext & E & H).
  destruct (m log) as [[a|e] l]; simpl in E; subst l; simpl in *.
  - by exists ext.
  - exists ext. split; [done|].
    destruct (first_exec ext) as [[[pre [[command cwd] t]] rest]|].
    + destruct H as [Hc Hf]. split; [done|].
      intros message Hm'. by destruct (Hf message Hm') as [_ [=]].
    + by intros r [= <-].
Qed.

(** The shape shared by the three compiled branches. *)
Lemma short_circuits_compile language compileCmd cwd t runCmd t' :
  compile_step w language compileCmd t →
  short_circuits w language
    (compileResult <- runCommand w compileCmd cwd t ;;
     if negb (ok compileResult) then res_json (JStr (out compileResult)) false
     else
       runResult <- runCommand w runCmd cwd t' ;;
       res_json (JStr (out runResult)) (ok runResult)).
Proof.
  intros Hc log. unfold bind, runCommand, res_json, ret.
  destruct (err (exec_result w log compileCmd cwd t)) as [message|] eqn:E; simpl.
  - exists [Exec compileCmd cwd t]. split; [done|]. simpl. split; [done|].
    rewrite app_nil_r. intros message' Hm. split; [done|]. congruence.
  - exists [Exec compileCmd cwd t; Exec runCmd cwd t'].
    split; [by rewrite <- app_assoc|]. simpl. split; [done|].
    rewrite app_nil_r. intros message' Hm. congruence.
Qed.

End RunFacts.

(** C3, at an input where it fails: the request carries both fields, the
    code being the empty string of an empty editor, and is answered 400. *)
Lemma empty_code_is_bad_request :
  post_run (posix all_fine)
    (mkRequest (JStr "s") (JStr "python") (JStr "main.py") (JStr "")) []
  = (inl (mkResponse 400 (ErrorBody "language & code required")), []).
Proof. reflexivity. Qed.

(** C3, amended.  A request whose language or code is missing or empty
    (falsy) is answered 400 and nothing is executed: the log of effects is
    left as it was, so no directory is made, no file written and no process
    spawned.  A request whose language and code are both non-empty is never
    answered 400. *)
Theorem run_requires_language_and_code (w : world) (req : request)
    (log : list effect) :
  (truthy (language req) && truthy (code req) = false →
   post_run w req log
   = (inl (mkResponse 400 (ErrorBody "language & code required")), log))
  ∧ (truthy (language req) && truthy (code req) = true →
     ∀ res log', post_run w req log = (inl res, log') → status res ≠ 400).
Proof.
  split.
  - intros H. unfold post_run.
    apply andb_false_iff in H as [->| ->]; simpl; [done|].
    by rewrite orb_true_r.
  - intros H res log'. rewrite (post_run_valid w req H).
    revert log res log'.
    change (responds (λ r, status r ≠ 400)
      (sessionTemp <- join_name w (BASE_TEMP w) (dflt "default" (sessionId req)) ;;
       ex <- existsSync w sessionTemp ;;
       (if ex then ret tt else mkdirSync w sessionTemp) ;;;
       try_catch
         (run_language w sessionTemp (language req) (filename req) (code req))
         (fun e =>
            ret (mkResponse 500
                   (ResultBody (JStr ("Server error: " +:+ message_of e)) false))))).
    do 3 (apply responds_bind; intros ?).
    apply responds_try_catch.
    + intros log r log' Hr.
      by rewrite (run_language_200 w _ _ _ _ log r log' Hr).
    + intros e. by apply responds_ret.
Qed.

Lemma run_requires_language_and_code_witness :
  post_run (posix all_fine) (mkRequest (JStr "s") JUndefined (JStr "main.py") (JStr "x")) []
  = (inl (mkResponse 400 (ErrorBody "language & code required")), [])
  ∧ ∀ res log',
      post_run (posix all_fine)
        (mkRequest (JStr "s") (JStr "python") (JStr "main.py") (JStr "x")) []
      = (inl res, log') → status res ≠ 400.
Proof.
  split.
  - apply (proj1 (run_requires_language_and_code (posix all_fine)
                    (mkRequest (JStr "s") JUndefined (JStr "main.py") (JStr "x")) [])).
    reflexivity.
  - apply (proj2 (run_requires_language_and_code (posix all_fine)
                    (mkRequest (JStr "s") (JStr "python") (JStr "main.py") (JStr "x")) [])).
    reflexivity.
Defined.

(** C4, at inputs where it fails.  The language, [ruby], is present and
    not a registered one.  With an empty code the request is answered 400,
    not with the result [Language not supported]; with the session id
    [null], [path.join] throws before the [try] is entered and the
    exception escapes the handler. *)
Lemma unsupported_language_not_always_reported :
  post_run (posix all_fine)
    (mkRequest (JStr "s") (JStr "ruby") JUndefined (JStr "")) []
  = (inl (mkResponse 400 (ErrorBody "language & code required")), [])
  ∧ post_run (posix all_fine)
      (mkRequest JNull (JStr "ruby") JUndefined (JStr "puts 1")) []
    = (inr (Error "The path argument must be of type string"), []).
Proof. split; reflexivity. Qed.

(** C4, amended.  A request that passes validation (language and code
    non-empty), whose language is none of the registered ones and whose
    session id is a string or absent, is answered, when the session
    directory can be made, with the result
    [{output: "Language not supported", ok: false}]: no file is written
    and no process spawned (the only effect is making the session
    directory when it is missing), and no exception escapes. *)
Theorem unsupported_language (w : world) (req : request) (log : list effect) :
  truthy (language req) = true →
  truthy (code req) = true →
  (∀ l, l ∈ registered → language req ≠ JStr l) →
  (sessionId req = JUndefined ∨ ∃ name, sessionId req = JStr name) →
  (∀ p, fs_fault w log (MkDir p) = None) →
  ∃ log',
    post_run w req log
    = (inl (mkResponse 200 (ResultBody (JStr "Language not supported") false)), log')
    ∧ (log' = log ∨ ∃ p, log' = log ++ [MkDir p])
    ∧ forallb (λ e, negb (is_exec e) && negb (is_write e)) (added log log') = true.
Proof.
  intros Hl Hc Hreg Hs Hfs.
  assert (Hrun : ∀ sessionTemp l,
    run_language w sessionTemp (language req) (filename req) (code req) l
    = (inl (mkResponse 200 (ResultBody (JStr "Language not supported") false)), l)).
  { intros sessionTemp l. unfold run_language, equals.
    rewrite !bool_decide_eq_false_2; [done|..];
      apply Hreg; apply list_elem_of_In; simpl; auto 10. }
  assert (∃ name, dflt "default" (sessionId req) = JStr name) as [name Hn].
  { destruct Hs as [->|[name ->]]; eauto. }
  rewrite post_run_valid by (by rewrite Hl, Hc).
  unfold bind, try_catch, existsSync, mkdirSync, fs_call. rewrite Hn.
  cbn -[run_language]. destruct (fs_exists w log _).
  - exists log. unfold ret at 1. cbn -[run_language]. rewrite Hrun.
    split; [done|]. split; [by left|].
    unfold added. by rewrite drop_all.
  - rewrite Hfs. eexists. cbn -[run_language]. rewrite Hrun.
    split; [done|]. split; [right; eauto|].
    unfold added. by rewrite drop_app_length.
Qed.

Lemma unsupported_language_witness :
  ∃ log',
    post_run (posix all_fine)
      (mkRequest (JStr "s") (JStr "ruby") JUndefined (JStr "puts 1")) []
    = (inl (mkResponse 200 (ResultBody (JStr "Language not supported") false)), log')
    ∧ (log' = [] ∨ ∃ p, log' = [] ++ [MkDir p])
    ∧ forallb (λ e, negb (is_exec e) && negb (is_write e)) (added [] log') = true.
Proof.
  apply (unsupported_language (posix all_fine)
           (mkRequest (JStr "s") (JStr "ruby") JUndefined (JStr "puts 1")) []).
  - reflexivity.
  - reflexivity.
  - intros l Hl. unfold registered in Hl.
    repeat (apply elem_of_cons in Hl as [->|Hl]; [discriminate|]).
    by apply elem_of_nil in Hl.
  - right. by exists "s".
  - reflexivity.
Defined.

Section CompiledBranches.
Variable w : world.

Lemma run_language_java sessionTemp filename code :
  run_language w sessionTemp (JStr "java") filename code =
  (className <- className w filename code ;;
   filePath <- writeTempFile w sessionTemp (JStr (className +:+ ".java")) code ;;
   compileResult <- runCommand w (javac w +:+ " " +:+ quoted filePath) sessionTemp 10000 ;;
   if negb (ok compileResult) then res_json (JStr (out compileResult)) false
   else
     runResult <- runCommand w (javaCmd w +:+ " -cp " +:+ quoted sessionTemp
                                +:+ " " +:+ className) sessionTemp 10000 ;;
     res_json (JStr (out runResult)) (ok runResult)).
Proof. reflexivity. Qed.

Lemma run_language_c sessionTemp filename code :
  run_language w sessionTemp (JStr "c") filename code =
  (filePath <- writeTempFile w sessionTemp (or_else filename (JStr "main.c")) code ;;
   compileResult <- runCommand w ("gcc " +:+ quoted filePath +:+ " -o "
                                  +:+ quoted (outExe w sessionTemp)) sessionTemp 15000 ;;
   if negb (ok compileResult) then res_json (JStr (out compileResult)) false
   else
     runResult <- runCommand w (quoted (outExe w sessionTemp)) sessionTemp 10000 ;;
     res_json (JStr (out runResult)) (ok runResult)).
Proof. reflexivity. Qed.

Lemma run_language_cpp sessionTemp filename code :
  run_language w sessionTemp (JStr "cpp") filename code =
  (filePath <- writeTempFile w sessionTemp (or_else filename (JStr "main.cpp")) code ;;
   compileResult <- runCommand w ("g++ " +:+ quoted filePath +:+ " -o "
                                  +:+ quoted (outExe w sessionTemp)) sessionTemp 15000 ;;
   if negb (ok compileResult) then res_json (JStr (out compileResult)) false
   else
     runResult <- runCommand w (quoted (outExe w sessionTemp)) sessionTemp 10000 ;;
     res_json (JStr (out runResult)) (ok runResult)).
Proof. reflexivity. Qed.

Lemma run_language_short_circuits sessionTemp language filename code :
  language = JStr "java" ∨ language = JStr "c" ∨ language = JStr "cpp" →
  short_circuits w language (run_language w sessionTemp language filename code).
Proof.
  intros [->|[->| ->]].
  - rewrite run_language_java.
    apply short_circuits_bind; [apply quiet_className | intros cn].
    apply short_circuits_bind; [apply quiet_writeTempFile | intros fp].
    apply short_circuits_compile. left. eauto.
  - rewrite run_language_c.
    apply short_circuits_bind; [apply quiet_writeTempFile | intros fp].
    apply short_circuits_compile. right; left. eauto.
  - rewrite run_language_cpp.
    apply short_circuits_bind; [apply quiet_writeTempFile | intros fp].
    apply short_circuits_compile. right; right. eauto.
Qed.

Lemma post_run_short_circuits req :
  language req = JStr "java" ∨ language req = JStr "c" ∨ language req = JStr "cpp" →
  short_circuits w (language req) (post_run w req).
Proof.
  intros Hlang.
  destruct (truthy (language req) && truthy (code req)) eqn:Hv.
  - rewrite post_run_valid by done.
    apply short_circuits_bind; [apply quiet_join_name | intros sessionTemp].
    apply short_circuits_bind; [apply quiet_existsSync | intros ex].
    apply short_circuits_bind; [apply quiet_ensure_dir | intros _].
    apply (short_circuits_try_catch w (language req) _
             (fun e => "Server error: " +:+ message_of e)).
    by apply run_language_short_circuits.
  - intros log. exists []. rewrite app_nil_r. unfold post_run.
    apply andb_false_iff in Hv.
    assert (negb (truthy (language req)) || negb (truthy (code req)) = true) as ->
      by (destruct Hv as [->| ->]; simpl; [done | apply orb_true_r]).
    simpl. split; [done|]. by intros r [= <-].
Qed.

End CompiledBranches.

(** A well-formed request in a compiled language does reach its compile
    step when the file system does not fail. *)
Section Progress.
Variable w : world.
Hypothesis no_fault : ∀ log e, fs_fault w log e = None.

Lemma quiet_ok_ret {A} (a : A) : quiet_ok (ret a).
Proof. intros log. exists a, []. by rewrite app_nil_r. Qed.

Lemma quiet_ok_bind {A B} (m : M A) (k : A → M B) :
  quiet_ok m → (∀ a, quiet_ok (k a)) → quiet_ok (bind m k).
Proof.
  intros Hm Hk log. unfold bind.
  destruct (Hm log) as (a & ext1 & -> & F1).
  destruct (Hk a (log ++ ext1)) as (b & ext2 & -> & F2).
  exists b, (ext1 ++ ext2). rewrite app_assoc. split; [done|].
  by rewrite first_exec_app, F2.
Qed.

Lemma quiet_ok_fs_call e : is_exec e = false → quiet_ok (fs_call w e).
Proof.
  intros He log. unfold fs_call. rewrite no_fault.
  exists tt, [e]. split; [done|]. by destruct e.
Qed.

Lemma quiet_ok_writeTempFile folder name content :
  quiet_ok (writeTempFile w folder (JStr name) content).
Proof.
  unfold writeTempFile.
  apply quiet_ok_bind.
  { intros log. exists (fs_exists w log folder), []. by rewrite app_nil_r. }
  intros ex. apply quiet_ok_bind.
  { destruct ex; [apply quiet_ok_ret | by apply quiet_ok_fs_call]. }
  intros _. apply quiet_ok_bind; [apply quiet_ok_ret | intros p].
  apply quiet_ok_bind; [by apply quiet_ok_fs_call | intros _].
  apply quiet_ok_ret.
Qed.

Lemma quiet_ok_className filename src :
  filename = JUndefined ∨ (∃ fn, filename = JStr fn) →
  quiet_ok (className w filename (JStr src)).
Proof.
  intros Hf. unfold className.
  destruct (public_class src); [apply quiet_ok_ret|].
  destruct Hf as [->|[fn ->]]; simpl; [apply quiet_ok_ret|].
  destruct (negb _); apply quiet_ok_ret.
Qed.

Lemma spawns_bind {A B} (m : M A) (k : A → M B) :
  quiet_ok m → (∀ a, spawns (k a)) → spawns (bind m k).
Proof.
  intros Hm Hk log. unfold bind.
  destruct (Hm log) as (a & ext1 & -> & F1).
  destruct (Hk a (log ++ ext1)) as (ext2 & E2 & F2).
  exists (ext1 ++ ext2). rewrite E2, app_assoc. split; [done|].
  rewrite first_exec_app by done.
  by destruct (first_exec ext2) as [[[? ?] ?]|].
Qed.

Lemma spawns_compile compileCmd cwd t runCmd t' :
  spawns
    (compileResult <- runCommand w compileCmd cwd t ;;
     if negb (ok compileResult) then res_json (JStr (out compileResult)) false
     else
       runResult <- runCommand w runCmd cwd t' ;;
       res_json (JStr (out runResult)) (ok runResult)).
Proof.
  intros log. unfold bind, runCommand, res_json, ret.
  destruct (err (exec_result w log compileCmd cwd t)); simpl.
  - by exists [Exec compileCmd cwd t].
  - exists [Exec compileCmd cwd t; Exec runCmd cwd t'].
    split; [by rewrite <- app_assoc | done].
Qed.

Lemma spawns_try_catch (m : M response) (h : exn → response) :
  spawns m → spawns (try_catch m (fun e => ret (h e))).
Proof.
  intros Hm log. unfold try_catch.
  destruct (Hm log) as (ext & E & F).
  destruct (m log) as [[a|e] l]; simpl in *; by exists ext.
Qed.

Lemma compiled_request_reaches_compile (req : request) (src : string) (log : list effect) :
  language req = JStr "java" ∨ language req = JStr "c" ∨ language req = JStr "cpp" →
  code req = JStr src → src ≠ "" →
  (sessionId req = JUndefined ∨ ∃ name, sessionId req = JStr name) →
  (filename req = JUndefined ∨ ∃ fn, filename req = JStr fn) →
  first_exec (added log (snd (post_run w req log))) ≠ None.
Proof.
  intros Hlang Hcode Hsrc Hsid Hfn.
  assert (Hv : truthy (language req) && truthy (code req) = true).
  { rewrite Hcode. simpl. destruct src; [done|].
    by destruct Hlang as [->|[->| ->]]. }
  assert (∃ name, dflt "default" (sessionId req) = JStr name) as [name Hn]
    by (destruct Hsid as [->|[name ->]]; eauto).
  assert (∀ d, ∃ name, or_else (filename req) (JStr d) = JStr name) as Hor.
  { intros d. destruct Hfn as [->|[fn ->]]; [by exists d|].
    unfold or_else. destruct (truthy (JStr fn)); eauto. }
  cut (spawns (post_run w req)).
  { intros H. destruct (H log) as (ext & E & F). by rewrite E, added_app. }
  rewrite post_run_valid by done. rewrite Hn, Hcode.
  apply spawns_bind; [apply quiet_ok_ret | intros sessionTemp].
  apply spawns_bind.
  { intros l. exists (fs_exists w l sessionTemp), []. by rewrite app_nil_r. }
  intros ex. apply spawns_bind.
  { destruct ex; [apply quiet_ok_ret | by apply quiet_ok_fs_call]. }
  intros _.
  apply (spawns_try_catch _
           (fun e => mkResponse 500
                       (ResultBody (JStr ("Server error: " +:+ message_of e)) false))).
  destruct Hlang as [->|[->| ->]].
  - rewrite run_language_java.
    apply spawns_bind; [by apply quiet_ok_className | intros cn].
    apply spawns_bind; [apply quiet_ok_writeTempFile | intros fp].
    apply spawns_compile.
  - rewrite run_language_c. destruct (Hor "main.c") as [n ->].
    apply spawns_bind; [apply quiet_ok_writeTempFile | intros fp].
    apply spawns_compile.
  - rewrite run_language_cpp. destruct (Hor "main.cpp") as [n ->].
    apply spawns_bind; [apply quiet_ok_writeTempFile | intros fp].
    apply spawns_compile.
Qed.

End Progress.

(** C2.  For a request in a compiled language (java, c, cpp):
    - a well-formed request (the code a non-empty string, the session id
      and the filename strings or absent) on a file system that does not
      fail does spawn a process;
    - the first process the handler spawns is the compile step; when that
      step reports failure (an error from [exec]: non-zero exit or
      timeout), the handler spawns nothing else, so the run step is never
      attempted, and it answers at once with [ok: false] and the captured
      diagnostic: the compiler's error stream, or the error's message when
      that stream is empty;
    - when no process was spawned at all, the response is not a result. *)
Theorem compile_failure_short_circuits (w : world) (req : request)
    (log : list effect) :
  language req = JStr "java" ∨ language req = JStr "c" ∨ language req = JStr "cpp" →
  let spawned := first_exec (added log (snd (post_run w req log))) in
  ((∀ l e, fs_fault w l e = None) →
   (∃ src, code req = JStr src ∧ src ≠ "") →
   (sessionId req = JUndefined ∨ ∃ name, sessionId req = JStr name) →
   (filename req = JUndefined ∨ ∃ fn, filename req = JStr fn) →
   spawned ≠ None)
  ∧ (∀ pre command cwd t rest,
       spawned = Some (pre, (command, cwd, t), rest) →
       compile_step w (language req) command t
       ∧ ∀ message,
           err (exec_result w (log ++ pre) command cwd t) = Some message →
           rest = []
           ∧ fst (post_run w req log)
             = inl (mkResponse 200
                      (ResultBody
                         (JStr (str_or
                                  (stderr (exec_result w (log ++ pre) command cwd t))
                                  message))
                         false)))
  ∧ (spawned = None → ∀ r, fst (post_run w req log) = inl r → status r ≠ 200).
Proof.
  intros Hlang spawned. subst spawned. split; [|split].
  - intros Hfs (src & Hcode & Hsrc) Hsid Hfn.
    by apply (compiled_request_reaches_compile w Hfs req src log).
  - intros pre command cwd t rest E.
    destruct (post_run_short_circuits w req Hlang log) as (ext & E' & H).
    rewrite E', added_app in E. by rewrite E in H.
  - intros E.
    destruct (post_run_short_circuits w req Hlang log) as (ext & E' & H).
    rewrite E', added_app in E. by rewrite E in H.
Qed.

(** On a host whose compilers fail, a C++ request reaches [g++], nothing
    runs after it, and the answer is the compiler's error stream. *)
Lemma compile_failure_short_circuits_witness :
  let req := mkRequest (JStr "s") (JStr "cpp") (JStr "prog.cpp") (JStr "int main(){") in
  let g := "g++ " +:+ quoted "/srv/temp/s/prog.cpp" +:+ " -o " +:+ quoted "/srv/temp/s/a.out" in
  first_exec (added [] (snd (post_run (posix failing_compilers) req []))) ≠ None
  ∧ compile_step (posix failing_compilers) (JStr "cpp") g 15000
  ∧ fst (post_run (posix failing_compilers) req [])
    = inl (mkResponse 200 (ResultBody (JStr "error: expected ;") false)).
Proof.
  intros req g.
  destruct (compile_failure_short_circuits (posix failing_compilers) req []
              (or_intror (or_intror eq_refl))) as (Hreach & Hfirst & _).
  split.
  - apply Hreach.
    + reflexivity.
    + exists "int main(){". by split.
    + right. by exists "s".
    + right. by exists "prog.cpp".
  - assert (E : first_exec (added [] (snd (post_run (posix failing_compilers) req [])))
                = Some ([MkDir "/srv/temp/s";
                         WriteFile "/srv/temp/s/prog.cpp" (JStr "int main(){")],
                        (g, "/srv/temp/s", 15000%Z), []))
      by (vm_compute; reflexivity).
    destruct (Hfirst _ _ _ _ _ E) as [Hstep Hfail].
    split; [exact Hstep|].
    destruct (Hfail "Command failed" eq_refl) as [_ ->]. reflexivity.
Defined.

(** The sample request of the witness does reach the compile step, which
    fails, and the answer is the compiler's error stream. *)
Example compile_failure_sample :
  post_run (posix failing_compilers)
    (mkRequest (JStr "s") (JStr "cpp") (JStr "prog.cpp") (JStr "int main(){")) []
  = (inl (mkResponse 200 (ResultBody (JStr "error: expected ;") false)),
     [MkDir "/srv/temp/s";
      WriteFile "/srv/temp/s/prog.cpp" (JStr "int main(){");
      Exec ("g++ " +:+ quoted "/srv/temp/s/prog.cpp" +:+ " -o " +:+ quoted "/srv/temp/s/a.out")
           "/srv/temp/s" 15000]).
Proof. vm_compute. reflexivity. Qed.

(** ** The pattern of the Java branch *)
Section RegexFacts.
Implicit Types (s p r rest name code : string) (f : ascii → bool).

Lemma app_cons c a b : String c a +:+ b = String c (a +:+ b).
Proof. reflexivity. Qed.

Lemma app_nil b : "" +:+ b = b.
Proof. reflexivity. Qed.

Lemma strip_prefix_app p r : strip_prefix p (p +:+ r) = Some r.
Proof.
  induction p as [|a p IH]; [done|].
  rewrite app_cons. simpl. by rewrite Ascii.eqb_refl.
Qed.

Lemma strip_prefix_Some p : ∀ s r, strip_prefix p s = Some r → s = p +:+ r.
Proof.
  induction p as [|a p IH]; intros s r; simpl.
  - by intros [= ->].
  - destruct s as [|b s]; [done|].
    destruct (Ascii.eqb a b) eqn:E; [|done].
    apply Ascii.eqb_eq in E as ->. intros H.
    by rewrite (IH _ _ H), app_cons.
Qed.

Lemma span_spec f s :
  s = fst (span f s) +:+ snd (span f s)
  ∧ all_chars f (fst (span f s)) = true
  ∧ stops f (snd (span f s)).
Proof.
  induction s as [|c s IH]; simpl; [done|].
  destruct (f c) eqn:E.
  - destruct (span f s) as [a b]; simpl in *.
    destruct IH as (H1 & H2 & H3). rewrite E, H2, app_cons, <- H1. done.
  - simpl. rewrite app_nil. done.
Qed.

Lemma span_app f a : ∀ b,
  all_chars f a = true → stops f b → span f (a +:+ b) = (a, b).
Proof.
  induction a as [|c a IH]; intros b Ha Hb.
  - rewrite app_nil. destruct b as [|c b]; [done|]. simpl in *. by rewrite Hb.
  - simpl in Ha. apply andb_true_iff in Ha as [Hc Ha].
    rewrite app_cons. simpl. rewrite Hc. by rewrite (IH b Ha Hb).
Qed.

Lemma plus_Some f s rest :
  plus f s = Some rest ↔
  ∃ ws, ws ≠ "" ∧ all_chars f ws = true ∧ s = ws +:+ rest ∧ stops f rest.
Proof.
  unfold plus. split.
  - destruct (span_spec f s) as (H1 & H2 & H3).
    destruct (span f s) as [a b]; simpl in *.
    destruct a as [|c a]; [done|]. intros [= <-].
    by exists (String c a).
  - intros (ws & Hne & Hall & -> & Hst).
    rewrite span_app by done. by destruct ws.
Qed.

Lemma alpha_not_space (c : ascii) : is_alpha_ c = true → is_space c = false.
Proof.
  destruct c as [[] [] [] [] [] [] [] []]; vm_compute; congruence.
Qed.

(** The anchored matcher succeeds exactly on a declaration. *)
Lemma match_here_spec s name : match_here s = Some name ↔ declares_here s name.
Proof.
  unfold match_here, declares_here. split.
  - destruct (strip_prefix "public" s) as [r1|] eqn:E1; [|done].
    apply strip_prefix_Some in E1.
    destruct (plus is_space r1) as [r2|] eqn:E2; [|done].
    apply plus_Some in E2 as (ws1 & Hne1 & Hall1 & -> & _).
    destruct (strip_prefix "class" r2) as [r3|] eqn:E3; [|done].
    apply strip_prefix_Some in E3.
    destruct (plus is_space r3) as [r4|] eqn:E4; [|done].
    apply plus_Some in E4 as (ws2 & Hne2 & Hall2 & -> & _).
    destruct r4 as [|c r4]; [done|].
    destruct (is_alpha_ c) eqn:Hc; [|done]. intros [= <-].
    destruct (span_spec is_word r4) as (H1 & H2 & H3).
    exists ws1, ws2, (snd (span is_word r4)).
    split; [|repeat split; try done; by exists c, (fst (span is_word r4))].
    rewrite E1, E3, (app_cons c). by rewrite <- H1.
  - intros (ws1 & ws2 & rest & -> & Hne1 & Hall1 & Hne2 & Hall2
            & (c & tl & -> & Hc & Htl) & Hrest).
    rewrite strip_prefix_app.
    assert (P1 : plus is_space (ws1 +:+ "class" +:+ ws2 +:+ String c tl +:+ rest)
                 = Some ("class" +:+ ws2 +:+ String c tl +:+ rest)).
    { apply plus_Some. exists ws1. repeat split; try done. }
    rewrite P1, strip_prefix_app.
    assert (P2 : plus is_space (ws2 +:+ String c tl +:+ rest)
                 = Some (String c tl +:+ rest)).
    { apply plus_Some. exists ws2. repeat split; try done.
      rewrite (app_cons c). simpl. by apply alpha_not_space. }
    rewrite P2, (app_cons c). simpl. rewrite Hc.
    by rewrite span_app.
Qed.

(** The matcher returns the name of the first declaration. *)
Lemma public_class_Some code name :
  public_class code = Some name ↔ first_declaration code name.
Proof.
  split.
  - revert name. induction code as [|c code IH]; intros name; simpl.
    + done.
    + destruct (match_here (String c code)) as [n|] eqn:E.
      * intros [= ->]. exists "", (String c code).
        split; [done|]. split; [by apply match_here_spec|]. intros; simpl; lia.
      * intros H. destruct (IH _ H) as (pre & s & -> & Hd & Hmin).
        exists (String c pre), s. split; [done|]. split; [done|].
        intros pre' s' name' Heq Hd'.
        destruct pre' as [|c' pre'].
        -- rewrite app_nil in Heq. subst s'.
           apply match_here_spec in Hd'. congruence.
        -- rewrite app_cons in Heq. injection Heq as -> Heq. simpl.
           pose proof (Hmin pre' s' name' Heq Hd'). lia.
  - intros (pre & s & -> & Hd & Hmin).
    induction pre as [|c pre IH].
    + rewrite app_nil. apply match_here_spec in Hd.
      destruct s; [discriminate | simpl; by rewrite Hd].
    + rewrite app_cons. simpl.
      destruct (match_here (String c (pre +:+ s))) as [n|] eqn:E.
      * apply match_here_spec in E.
        pose proof (Hmin "" (String c (pre +:+ s)) n eq_refl E) as Hl.
        simpl in Hl. lia.
      * apply IH. intros pre' s' name' Heq Hd'.
        pose proof (Hmin (String c pre') s' name') as Hl.
        rewrite !app_cons, Heq in Hl. specialize (Hl eq_refl Hd').
        simpl in Hl. lia.
Qed.

Lemma public_class_None code : public_class code = None ↔ no_declaration code.
Proof.
  unfold no_declaration. split.
  - induction code as [|c code IH]; simpl.
    + intros _ pre s name Heq Hd.
      destruct pre; [|done]. rewrite app_nil in Heq. subst s.
      apply match_here_spec in Hd. discriminate.
    + destruct (match_here (String c code)) eqn:E; [done|].
      intros H pre s name Heq Hd. destruct pre as [|c' pre].
      * rewrite app_nil in Heq. subst s. apply match_here_spec in Hd. congruence.
      * rewrite app_cons in Heq. injection Heq as -> Heq.
        by apply (IH H pre s name).
  - intros H. destruct (public_class code) as [name|] eqn:E; [|done].
    apply public_class_Some in E as (pre & s & Heq & Hd & _).
    by destruct (H pre s name).
Qed.

End RegexFacts.

(** C6, at an input where it fails: the request names its file
    [Foo.java], whose base name is [Foo], and the source declares a public
    class [Bar]; the class name is taken from the source all the same, the
    file written is [Bar.java] and the class run is [Bar]. *)
Lemma explicit_filename_overridden :
  path_basename (posix all_fine) "Foo.java" ".java" = "Foo"
  ∧ className (posix all_fine) (JStr "Foo.java") (JStr "public class Bar {}") []
    = (inl "Bar", [])
  ∧ post_run (posix all_fine)
      (mkRequest (JStr "s") (JStr "java") (JStr "Foo.java") (JStr "public class Bar {}")) []
    = (inl (mkResponse 200 (ResultBody (JStr "hi") true)),
       [MkDir "/srv/temp/s";
        WriteFile "/srv/temp/s/Bar.java" (JStr "public class Bar {}");
        Exec ("javac " +:+ quoted "/srv/temp/s/Bar.java") "/srv/temp/s" 10000;
        Exec ("java -cp " +:+ quoted "/srv/temp/s" +:+ " Bar") "/srv/temp/s" 10000]).
Proof. vm_compute. repeat split; reflexivity. Qed.

(** C6, amended.  For a Java request the class name, which names the
    source file [<name>.java] and the class that is run, is the name of the
    first public class declaration of the source whenever the source has
    one, whether or not a filename is given; when the source has none, it is
    the base name of the filename without [.java] if a filename is given,
    and [Main] otherwise. *)
Theorem java_class_name (w : world) (filename : jsval) (src : string) :
  (∀ name, first_declaration src name →
     className w filename (JStr src) = ret name)
  ∧ (no_declaration src → ∀ fn, filename = JStr fn → fn ≠ "" →
     className w filename (JStr src) = ret (path_basename w fn ".java"))
  ∧ (no_declaration src → truthy filename = false →
     className w filename (JStr src) = ret "Main")
  ∧ (no_declaration src ∨ ∃ name, first_declaration src name).
Proof.
  repeat split.
  - intros name H. apply public_class_Some in H. unfold className. by rewrite H.
  - intros H fn -> Hfn. apply public_class_None in H. unfold className.
    rewrite H. simpl. destruct fn; [done|]. done.
  - intros H Hf. apply public_class_None in H. unfold className. by rewrite H, Hf.
  - destruct (public_class src) as [name|] eqn:E.
    + right. exists name. by apply public_class_Some.
    + left. by apply public_class_None.
Qed.

Lemma java_class_name_witness :
  className (posix all_fine) (JStr "Foo.java") (JStr "import a.B; public  class Bar {}")
  = ret "Bar"
  ∧ className (posix all_fine) (JStr "src/Foo.java") (JStr "class Bar {}") = ret "Foo"
  ∧ className (posix all_fine) JUndefined (JStr "class Bar {}") = ret "Main".
Proof.
  split; [|split].
  - apply (proj1 (java_class_name (posix all_fine) (JStr "Foo.java")
                    "import a.B; public  class Bar {}")).
    apply public_class_Some. reflexivity.
  - apply (proj1 (proj2 (java_class_name (posix all_fine) (JStr "src/Foo.java")
                           "class Bar {}"))
             ltac:(apply public_class_None; reflexivity) "src/Foo.java" eq_refl).
    discriminate.
  - apply (proj1 (proj2 (proj2 (java_class_name (posix all_fine) JUndefined
                                  "class Bar {}")))).
    + apply public_class_None. reflexivity.
    + reflexivity.
Defined.

(** * Further properties of the synchronizer *)

Section KeyFacts.
Implicit Types (a b x y : string).

Lemma string_length_app a b : String.length (a +:+ b) = String.length a + String.length b.
Proof. induction a as [|c a IH]; [done|]. rewrite app_cons. simpl. by rewrite IH. Qed.

Lemma app_inv_same_length a : ∀ b x y,
  String.length a = String.length b → a +:+ x = b +:+ y → a = b ∧ x = y.
Proof.
  induction a as [|c a IH]; intros [|d b] x y Hl H; simpl in Hl; try lia.
  - by rewrite !app_nil in H.
  - rewrite !app_cons in H. injection H as -> H.
    destruct (IH b x y) as [-> ->]; [lia | done | done].
Qed.

Lemma app_inv_tail a b x : a +:+ x = b +:+ x → a = b.
Proof.
  intros H. apply (app_inv_same_length a b x x); [|done].
  apply (f_equal String.length) in H. rewrite !string_length_app in H. lia.
Qed.

Lemma sessionKey_inj a b : sessionKey (JStr a) = sessionKey (JStr b) → a = b.
Proof. unfold sessionKey. simpl. by intros H%(inj (String.append "session:")). Qed.

Lemma filesKey_inj a b : filesKey (JStr a) = filesKey (JStr b) → a = b.
Proof. unfold filesKey. intros H%app_inv_tail. by apply sessionKey_inj. Qed.

Lemma usersKey_inj a b : usersKey (JStr a) = usersKey (JStr b) → a = b.
Proof. unfold usersKey. intros H%app_inv_tail. by apply sessionKey_inj. Qed.

End KeyFacts.

(** X1.  The key of a session's files and the key of a session's users
    never coincide, whatever the two session ids are: the hash of files
    and the set of users cannot be stored under one Redis key. *)
Theorem files_and_users_keys_differ (a b : jsval) : filesKey a ≠ usersKey b.
Proof.
  unfold filesKey, usersKey.
  generalize (sessionKey a) (sessionKey b). intros x y H.
  destruct (app_inv_same_length x y ":files" ":users") as [_ Hs]; [|done|discriminate].
  apply (f_equal String.length) in H. rewrite !string_length_app in H. simpl in H. lia.
Qed.

Section MoreSyncFacts.
Implicit Types (st : server) (a : action) (s r j : sid) (k : cont).

Lemma hgetall_hset_ne rd key field value key' :
  key ≠ key' → hgetall key' (hset key field value rd) = hgetall key' rd.
Proof. intros H. unfold hgetall, hset; simpl. by rewrite lookup_insert_ne. Qed.

Lemma hgetall_hdel_ne rd key field key' :
  key ≠ key' → hgetall key' (hdel key field rd) = hgetall key' rd.
Proof.
  intros H. unfold hgetall, hdel; simpl.
  destruct (decide (_ = ∅)); [by rewrite lookup_delete_ne | by rewrite lookup_insert_ne].
Qed.

(** A request that neither stores nor removes a file leaves it as it is. *)
Lemma step_keeps_stored st a key field :
  touches_file key field a = false →
  hgetall key (store (step st a)) !! field = hgetall key (store st) !! field.
Proof.
  unfold touches_file. intros Ht. apply orb_false_iff in Ht as [Hs Hd].
  destruct a as [s|now s e|sid0 fn ct|].
  - simpl. by destruct (socks st !! s).
  - simpl. destruct (is_open s st); [|done].
    destruct e as [sid0 un|sid0 fn ct|sid0 fn ct|sid0 fn|sid0 un tx|]; simpl in *.
    + unfold on_join, socket_join. by destruct (socks st !! s) as [[|]|].
    + unfold on_file_update. destruct (truthy fn); simpl in *; [|done].
      rewrite hgetall_hset. destruct (decide (_ ∧ _)) as [[Hk Hf]|]; [|done].
      by rewrite !bool_decide_eq_true_2 in Hs.
    + unfold on_file_create. destruct (truthy fn); simpl in *; [|done].
      rewrite hgetall_hset. destruct (decide (_ ∧ _)) as [[Hk Hf]|]; [|done].
      by rewrite !bool_decide_eq_true_2 in Hs.
    + unfold on_file_delete. destruct (truthy fn); simpl in *; [|done].
      rewrite hgetall_hdel. destruct (decide (_ ∧ _)) as [[Hk Hf]|]; [|done].
      by rewrite !bool_decide_eq_true_2 in Hd.
    + done.
    + unfold on_disconnect; simpl.
      by destruct (socketUser st !! s) as [[? ?]|].
  - simpl in *. unfold on_save.
    destruct (truthy fn); simpl in *; [|done].
    destruct (bool_decide (ct = _ ∨ _)); simpl in *; [done|].
    rewrite hgetall_hset. destruct (decide (_ ∧ _)) as [[Hk Hf]|]; [|done].
    by rewrite !bool_decide_eq_true_2 in Hs.
  - by rewrite step_resume_store.
Qed.

Lemma run_keeps_stored sched : ∀ st key field,
  forallb (λ a, negb (touches_file key field a)) sched = true →
  hgetall key (store (run st sched)) !! field = hgetall key (store st) !! field.
Proof.
  induction sched as [|a sched IH]; intros st key field Hs; [done|].
  simpl in Hs. apply andb_true_iff in Hs as [Ha Hs].
  apply negb_true_iff in Ha. rewrite run_cons.
  rewrite IH by done. by apply step_keeps_stored.
Qed.

(** A handler that suspended last runs when the reply to its command
    arrives, whatever the server handled meanwhile. *)
Lemma resume_after st P k mid :
  pending st = P ++ [k] → until_reply st mid →
  ∃ Q, step (run st mid) Resume = resume k (set_pending Q (run st mid)).
Proof.
  intros Hp Hu. destruct (until_reply_head st P k mid Hp Hu) as [Q HQ].
  exists Q. simpl. by rewrite HQ.
Qed.

Lemma step_file_create st now s sessionId filename content :
  is_open s st = true → truthy filename = true →
  step st (Arrive now s (FileCreate sessionId filename content)) =
  await (KCreated (dflt "default" sessionId) filename (dflt "" content))
    (set_store (hset (filesKey (dflt "default" sessionId)) (toArg filename)
                     (toArg (dflt "" content)) (store st)) st).
Proof.
  intros Ho Ht. rewrite step_open_arrive by done. simpl.
  unfold on_file_create. by rewrite Ht.
Qed.

Lemma step_file_delete st now s sessionId filename :
  is_open s st = true → truthy filename = true →
  step st (Arrive now s (FileDelete sessionId filename)) =
  await (KDeleted (dflt "default" sessionId) filename)
    (set_store (hdel (filesKey (dflt "default" sessionId)) (toArg filename)
                     (store st)) st).
Proof.
  intros Ho Ht. rewrite step_open_arrive by done. simpl.
  unfold on_file_delete. by rewrite Ht.
Qed.

Lemma step_disconnect st now s sessionId userName :
  is_open s st = true → socketUser st !! s = Some (sessionId, userName) →
  step st (Arrive now s Disconnect) =
  await (KLeft s sessionId userName)
    (set_store (srem (usersKey sessionId) (toArg userName) (store st))
       (set_socks (<[s := Closed]> (socks st)) st)).
Proof.
  intros Ho Hb. rewrite step_open_arrive by done. simpl.
  unfold on_disconnect. simpl. by rewrite Hb.
Qed.

End MoreSyncFacts.

(** X2.  Sessions with different (string) ids do not touch each other's
    state: a request addressed to session [a], be it a join, a file
    mutation, a chat message or a REST save, leaves the files and the
    users stored for any other session [b] as they were. *)
Theorem sessions_isolated (st : server) (a b : string) (act : action) :
  a ≠ b →
  addressed a act = true →
  get_files b (step st act) = get_files b st
  ∧ smembers_set (usersKey (JStr b)) (store (step st act))
    = smembers_set (usersKey (JStr b)) (store st).
Proof.
  intros Hab Hadd.
  assert (Hf : filesKey (JStr a) ≠ filesKey (JStr b))
    by (intros H%filesKey_inj; done).
  assert (Hu : usersKey (JStr a) ≠ usersKey (JStr b))
    by (intros H%usersKey_inj; done).
  unfold get_files.
  destruct act as [s|now s e|sid0 fn ct|]; simpl in Hadd; try done.
  - simpl. destruct (is_open s st); [|done].
    destruct e as [sid0 un|sid0 fn ct|sid0 fn ct|sid0 fn|sid0 un tx|];
      try done; apply bool_decide_eq_true in Hadd as ->; simpl.
    + assert (store (socket_join s (JStr a) st) = store st) as ->
        by (unfold socket_join; by destruct (socks st !! s) as [[|]|]).
      rewrite smembers_set_sadd. by rewrite decide_False.
    + unfold on_file_update. destruct (truthy fn); simpl; [|done].
      by rewrite hgetall_hset_ne.
    + unfold on_file_create. destruct (truthy fn); simpl; [|done].
      by rewrite hgetall_hset_ne.
    + unfold on_file_delete. destruct (truthy fn); simpl; [|done].
      by rewrite hgetall_hdel_ne.
  - apply bool_decide_eq_true in Hadd as ->. simpl. unfold on_save.
    destruct (_ || _); simpl; [done|]. by rewrite hgetall_hset_ne.
Qed.

Lemma sessions_isolated_witness :
  get_files "t" (step two_clients
                   (Arrive 3 "a" (FileCreate (JStr "s") (JStr "f.js") (JStr "x"))))
  = get_files "t" two_clients
  ∧ smembers_set (usersKey (JStr "t"))
      (store (step two_clients
                (Arrive 3 "a" (FileCreate (JStr "s") (JStr "f.js") (JStr "x")))))
    = smembers_set (usersKey (JStr "t")) (store two_clients).
Proof.
  apply (sessions_isolated two_clients "s" "t"
           (Arrive 3 "a" (FileCreate (JStr "s") (JStr "f.js") (JStr "x")))).
  - discriminate.
  - reflexivity.
Defined.

(** X3.  A file made by [file:create] is in the [session:init] of every
    later [join] of the session, with the content it was made with (the
    empty string when the request carried none), provided no request
    stores or removes that file between the creation and the moment the
    join reads the files. *)
Theorem create_then_join_snapshot (st : server) (now : Z) (s : sid)
    (sessionId filename content : jsval) (mid0 : list action)
    (now' : Z) (j : sid) (userName : jsval) (mid1 mid2 mid3 : list action) :
  is_open s st = true →
  truthy filename = true →
  let room := dflt "default" sessionId in
  let st1 := step st (Arrive now s (FileCreate sessionId filename content)) in
  let st2 := run st1 mid0 in
  is_open j st2 = true →
  let a := step st2 (Arrive now' j (Join sessionId userName)) in
  until_reply a mid1 →
  let b := step (run a mid1) Resume in
  until_reply b mid2 →
  let c := step (run b mid2) Resume in
  until_reply c mid3 →
  let d := run c mid3 in
  forallb (λ x, negb (touches_file (filesKey room) (toArg filename) x)) (mid0 ++ mid1) = true →
  is_open j d = true →
  ∃ files users rest,
    outbox (step d Resume) = outbox d ++ (j, SessionInit files users) :: rest
    ∧ files !! toArg filename = Some (toArg (dflt "" content)).
Proof.
  intros Ho Ht room st1 st2 Hj a U1 b U2 c U3 d Hw Hd.
  rewrite forallb_app in Hw. apply andb_true_iff in Hw as [Hw0 Hw1].
  do 3 eexists. split.
  - apply (join_chain st2 now' j sessionId userName mid1 mid2 mid3); done.
  - rewrite run_keeps_stored by done.
    destruct (step_join st2 now' j sessionId userName Hj) as [_ Hs].
    unfold a. rewrite Hs, hgetall_sadd.
    unfold st2. rewrite run_keeps_stored by done.
    unfold st1. rewrite step_file_create by done. simpl.
    rewrite hgetall_hset. by rewrite decide_True.
Qed.

Lemma create_then_join_snapshot_witness :
  let st := run two_clients [Connect "c"] in
  let st1 := step st (Arrive 4 "a" (FileCreate (JStr "s") (JStr "f.js") (JStr "x"))) in
  let st2 := run st1 [Arrive 5 "b" (FileUpdate (JStr "s") (JStr "g.js") (JStr "y"))] in
  let a := step st2 (Arrive 6 "c" (Join (JStr "s") (JStr "carol"))) in
  let b := step (run a [Resume; Resume]) Resume in
  let c := step (run b []) Resume in
  let d := run c [] in
  ∃ files users rest,
    outbox (step d Resume) = outbox d ++ ("c", SessionInit files users) :: rest
    ∧ files !! toArg (JStr "f.js") = Some (toArg (dflt "" (JStr "x"))).
Proof.
  apply (create_then_join_snapshot _ 4 "a" (JStr "s") (JStr "f.js") (JStr "x")
           [Arrive 5 "b" (FileUpdate (JStr "s") (JStr "g.js") (JStr "y"))]
           6 "c" (JStr "carol") [Resume; Resume] [] []);
    reflexivity.
Defined.

(** X4.  A [file:create] with a non-empty filename stores the file at
    once, with the empty string when the request carries no content, and
    when its handler resumes it sends exactly one [file:created] to every
    connection of the session, the creator included when it has joined. *)
Theorem file_create_stores_and_notifies_session (st : server) (now : Z)
    (s : sid) (sessionId filename content : jsval) (mid : list action) :
  is_open s st = true →
  truthy filename = true →
  let room := dflt "default" sessionId in
  let st1 := step st (Arrive now s (FileCreate sessionId filename content)) in
  until_reply st1 mid →
  let st2 := run st1 mid in
  let st3 := step st2 Resume in
  stored st1 room (toArg filename) = Some (toArg (dflt "" content))
  ∧ ∃ sent, outbox st3 = outbox st2 ++ sent
      ∧ ∀ r ev, (r, ev) ∈ sent ↔
          ev = FileCreated filename (dflt "" content) ∧ in_session r room st2.
Proof.
  intros Ho Ht room st1 Hu st2 st3.
  pose proof (step_file_create st now s sessionId filename content Ho Ht) as Hst1.
  fold st1 room in Hst1. split.
  - unfold stored. rewrite Hst1. simpl. rewrite hgetall_hset. by rewrite decide_True.
  - destruct (resume_after st1 (pending st) _ mid (f_equal pending Hst1) Hu) as [Q HQ].
    eexists. split.
    + unfold st3, st2. rewrite HQ. reflexivity.
    + intros r ev. rewrite elem_of_broadcast.
      replace (members room (set_pending Q (run st1 mid)))
        with (members room st2) by reflexivity.
      by rewrite elem_of_members.
Qed.

Lemma file_create_stores_and_notifies_session_witness :
  let st1 := step two_clients (Arrive 3 "a" (FileCreate (JStr "s") (JStr "f.js") JUndefined)) in
  let st2 := run st1 [] in
  let st3 := step st2 Resume in
  stored st1 (dflt "default" (JStr "s")) (toArg (JStr "f.js"))
  = Some (toArg (dflt "" JUndefined))
  ∧ ∃ sent, outbox st3 = outbox st2 ++ sent
      ∧ ∀ r ev, (r, ev) ∈ sent ↔
          ev = FileCreated (JStr "f.js") (dflt "" JUndefined)
          ∧ in_session r (dflt "default" (JStr "s")) st2.
Proof.
  apply (file_create_stores_and_notifies_session two_clients 3 "a"
           (JStr "s") (JStr "f.js") JUndefined []);
    reflexivity.
Defined.

(** X5.  A [file:delete] with a non-empty filename removes the file from
    the store at once, whether or not it was there, and when its handler
    resumes it sends exactly one [file:deleted] to every connection of the
    session. *)
Theorem file_delete_removes_and_notifies_session (st : server) (now : Z)
    (s : sid) (sessionId filename : jsval) (mid : list action) :
  is_open s st = true →
  truthy filename = true →
  let room := dflt "default" sessionId in
  let st1 := step st (Arrive now s (FileDelete sessionId filename)) in
  until_reply st1 mid →
  let st2 := run st1 mid in
  let st3 := step st2 Resume in
  stored st1 room (toArg filename) = None
  ∧ ∃ sent, outbox st3 = outbox st2 ++ sent
      ∧ ∀ r ev, (r, ev) ∈ sent ↔
          ev = FileDeleted filename ∧ in_session r room st2.
Proof.
  intros Ho Ht room st1 Hu st2 st3.
  pose proof (step_file_delete st now s sessionId filename Ho Ht) as Hst1.
  fold st1 room in Hst1. split.
  - unfold stored. rewrite Hst1. simpl. rewrite hgetall_hdel. by rewrite decide_True.
  - destruct (resume_after st1 (pending st) _ mid (f_equal pending Hst1) Hu) as [Q HQ].
    eexists. split.
    + unfold st3, st2. rewrite HQ. reflexivity.
    + intros r ev. rewrite elem_of_broadcast.
      replace (members room (set_pending Q (run st1 mid)))
        with (members room st2) by reflexivity.
      by rewrite elem_of_members.
Qed.

Lemma file_delete_removes_and_notifies_session_witness :
  let st1 := step two_clients (Arrive 3 "b" (FileDelete (JStr "s") (JStr "f.js"))) in
  let st2 := run st1 [] in
  let st3 := step st2 Resume in
  stored st1 (dflt "default" (JStr "s")) (toArg (JStr "f.js")) = None
  ∧ ∃ sent, outbox st3 = outbox st2 ++ sent
      ∧ ∀ r ev, (r, ev) ∈ sent ↔
          ev = FileDeleted (JStr "f.js")
          ∧ in_session r (dflt "default" (JStr "s")) st2.
Proof.
  apply (file_delete_removes_and_notifies_session two_clients 3 "b"
           (JStr "s") (JStr "f.js") []);
    reflexivity.
Defined.

(** X6.  When a connection that joined as [userName] disconnects, the
    name leaves the session's users at once, whether or not other
    connections registered under the same name remain (their
    registrations are untouched); when the handler resumes, exactly the
    connections of the session are sent [user:left], and the registration
    of the closed connection is dropped. *)
Theorem leave_removes_name_and_notifies (st : server) (now : Z) (s : sid)
    (sessionId userName : jsval) (mid : list action) :
  is_open s st = true →
  socketUser st !! s = Some (sessionId, userName) →
  let st1 := step st (Arrive now s Disconnect) in
  until_reply st1 mid →
  let st2 := run st1 mid in
  let st3 := step st2 Resume in
  (toArg userName ∉ smembers_set (usersKey sessionId) (store st1))
  ∧ is_open s st1 = false
  ∧ (∀ s', s' ≠ s → socketUser st1 !! s' = socketUser st !! s')
  ∧ (∃ sent, outbox st3 = outbox st2 ++ sent
       ∧ ∀ r ev, (r, ev) ∈ sent ↔
           ev = UserLeft userName ∧ r ≠ s ∧ in_session r sessionId st2)
  ∧ socketUser st3 !! s = None.
Proof.
  intros Ho Hb st1 Hu st2 st3.
  pose proof (step_disconnect st now s sessionId userName Ho Hb) as Hst1.
  fold st1 in Hst1.
  destruct (resume_after st1 (pending st) _ mid (f_equal pending Hst1) Hu) as [Q HQ].
  repeat split.
  - rewrite Hst1. simpl. rewrite smembers_set_srem, decide_True by done. set_solver.
  - rewrite Hst1. unfold is_open. simpl. by rewrite lookup_insert_eq.
  - intros s' Hs'. by rewrite Hst1.
  - eexists. split.
    + unfold st3, st2. rewrite HQ. reflexivity.
    + intros r ev. rewrite elem_of_broadcast, list_elem_of_filter.
      replace (members sessionId (set_pending Q (run st1 mid)))
        with (members sessionId st2) by reflexivity.
      by rewrite elem_of_members.
  - unfold st3, st2. rewrite HQ. simpl. apply lookup_delete_eq.
Qed.

Lemma leave_removes_name_and_notifies_witness :
  let st1 := step two_clients (Arrive 3 "a" Disconnect) in
  let st2 := run st1 [] in
  let st3 := step st2 Resume in
  (toArg (JStr "alice") ∉ smembers_set (usersKey (JStr "s")) (store st1))
  ∧ is_open "a" st1 = false
  ∧ (∀ s', s' ≠ "a" → socketUser st1 !! s' = socketUser two_clients !! s')
  ∧ (∃ sent, outbox st3 = outbox st2 ++ sent
       ∧ ∀ r ev, (r, ev) ∈ sent ↔
           ev = UserLeft (JStr "alice") ∧ r ≠ "a" ∧ in_session r (JStr "s") st2)
  ∧ socketUser st3 !! "a" = None.
Proof.
  apply (leave_removes_name_and_notifies two_clients 3 "a" (JStr "s") (JStr "alice") []);
    reflexivity.
Defined.

(** X7.  A [join] repeated by a connection that is already in the room,
    registered for the same session under the same name, the name being
    among the session's users, changes nothing that is kept: store, rooms
    and registrations stay as they are.  All it does is queue the handler
    that will send [session:init] and [user:join] again. *)
Theorem rejoin_is_idempotent (st : server) (now : Z) (s : sid)
    (sessionId userName : jsval) (rs : gset jsval) :
  let room := dflt "default" sessionId in
  let name := dflt "Anonymous" userName in
  socks st !! s = Some (Open rs) →
  room ∈ rs →
  socketUser st !! s = Some (room, name) →
  toArg name ∈ smembers_set (usersKey room) (store st) →
  step st (Arrive now s (Join sessionId userName))
  = await (KJoinFiles s room name) st.
Proof.
  intros room name Hs Hin Hb Hp.
  assert (Ho : is_open s st = true) by (unfold is_open; by rewrite Hs).
  rewrite step_open_arrive by done. simpl. unfold on_join, socket_join.
  rewrite Hs. fold room name.
  assert (E1 : <[s := Open ({[room]} ∪ rs)]> (socks st) = socks st).
  { apply insert_id. rewrite Hs. do 2 f_equal. set_solver. }
  assert (E2 : <[s := (room, name)]> (socketUser st) = socketUser st)
    by (by apply insert_id).
  assert (E3 : sadd (usersKey room) (toArg name) (store st) = store st).
  { unfold sadd. unfold smembers_set in *.
    destruct (sets (store st) !! usersKey room) as [set|] eqn:E; simpl in *;
      [|set_solver].
    replace ({[toArg name]} ∪ set) with set by set_solver.
    rewrite insert_id by done. by destruct (store st). }
  unfold await, set_store, set_socketUser, set_socks, set_pending; simpl.
  rewrite E1, E2, E3. by destruct st.
Qed.

Lemma rejoin_is_idempotent_witness :
  step two_clients (Arrive 3 "a" (Join (JStr "s") (JStr "alice")))
  = await (KJoinFiles "a" (dflt "default" (JStr "s")) (dflt "Anonymous" (JStr "alice")))
      two_clients.
Proof.
  apply (rejoin_is_idempotent two_clients 3 "a" (JStr "s") (JStr "alice")
           {[JStr "a"; JStr "s"]}).
  - vm_compute. reflexivity.
  - set_solver.
  - vm_compute. reflexivity.
  - vm_compute. set_solver.
Defined.

Section DeliveryFacts.
Implicit Types (st : server) (a : action) (s r : sid) (k : cont).

Lemma in_session_open r room st : in_session r room st → is_open r st = true.
Proof. intros (rs & H & _). unfold is_open. by rewrite H. Qed.

Lemma members_open room st : Forall (λ r, is_open r st = true) (members room st).
Proof.
  apply Forall_forall. intros r Hr%elem_of_members. by apply (in_session_open r room).
Qed.

Lemma broadcast_open (ev : server_event) (l : list sid) st :
  Forall (λ r, is_open r st = true) l →
  Forall (λ p, is_open p.1 st = true) (map (λ r, (r, ev)) l).
Proof. induction 1; simpl; constructor; done. Qed.

Lemma filter_open s room st :
  Forall (λ r, is_open r st = true) (filter (λ r, r ≠ s) (members room st)).
Proof.
  apply Forall_forall. intros r [_ Hr]%list_elem_of_filter.
  apply elem_of_members in Hr. by apply (in_session_open r room).
Qed.

(** What a resumed handler sends goes to open sockets. *)
Lemma resume_sends_to_open k st :
  ∃ sent, outbox (resume k st) = outbox st ++ sent
    ∧ Forall (λ p, is_open p.1 st = true) sent.
Proof.
  destruct k as [s S u|s S u fs|s S u fs us|s S f c|S f c|S f|s S u|S f c]; simpl.
  - exists []. by rewrite app_nil_r.
  - exists []. by rewrite app_nil_r.
  - unfold socket_emit. destruct (is_open s st) eqn:E; simpl.
    + eexists. rewrite <- app_assoc. split; [reflexivity|].
      constructor; [done|]. apply broadcast_open. apply (filter_open s S st).
    + eexists. split; [reflexivity|]. apply broadcast_open. apply filter_open.
  - eexists. split; [reflexivity|]. apply broadcast_open. apply filter_open.
  - eexists. split; [reflexivity|]. apply broadcast_open. apply members_open.
  - eexists. split; [reflexivity|]. apply broadcast_open. apply members_open.
  - eexists. split; [reflexivity|]. apply broadcast_open. apply filter_open.
  - eexists. split; [reflexivity|]. apply broadcast_open. apply members_open.
Qed.

Lemma step_sends_to_open st a :
  ∃ sent, outbox (step st a) = outbox st ++ sent
    ∧ Forall (λ p, is_open p.1 st = true) sent.
Proof.
  destruct a as [s|now s e|sid0 fn ct|]; simpl.
  - exists []. rewrite app_nil_r. by destruct (socks st !! s).
  - destruct (is_open s st) eqn:Ho; [|exists []; by rewrite app_nil_r].
    destruct e as [sid0 un|sid0 fn ct|sid0 fn ct|sid0 fn|sid0 un tx|]; simpl.
    + exists []. rewrite app_nil_r. unfold on_join, socket_join.
      by destruct (socks st !! s) as [[|]|].
    + exists []. rewrite app_nil_r. unfold on_file_update. by destruct (truthy fn).
    + exists []. rewrite app_nil_r. unfold on_file_create. by destruct (truthy fn).
    + exists []. rewrite app_nil_r. unfold on_file_delete. by destruct (truthy fn).
    + eexists. split; [reflexivity|]. apply broadcast_open. apply members_open.
    + exists []. rewrite app_nil_r. unfold on_disconnect. simpl.
      by destruct (socketUser st !! s) as [[? ?]|].
  - exists []. rewrite app_nil_r. unfold on_save. by destruct (_ || _).
  - destruct (pending st) as [|k q]; [exists []; by rewrite app_nil_r|].
    apply (resume_sends_to_open k (set_pending q st)).
Qed.

Lemma well_bound_step st a : well_bound st → well_bound (step st a).
Proof.
  intros WB. destruct a as [s0|now s0 e|sid0 fn ct|].
  - simpl. destruct (socks st !! s0) as [x|] eqn:E; [done|].
    intros s S u Hb. simpl in *. specialize (WB s S u Hb).
    destruct (decide (s = s0)) as [->|Hne].
    + by rewrite E in WB.
    + by rewrite lookup_insert_ne.
  - simpl. destruct (is_open s0 st) eqn:Ho; [|done].
    destruct e as [sid0 un|sid0 fn ct|sid0 fn ct|sid0 fn|sid0 un tx|]; simpl.
    + unfold is_open in Ho. unfold on_join, socket_join.
      destruct (socks st !! s0) as [[rs|]|] eqn:E; try done.
      intros s S u Hb. simpl in *.
      destruct (decide (s = s0)) as [->|Hne].
      * rewrite lookup_insert_eq in Hb. injection Hb as <- <-.
        rewrite lookup_insert_eq. set_solver.
      * rewrite lookup_insert_ne in Hb by done. rewrite lookup_insert_ne by done.
        by apply (WB s S u).
    + unfold on_file_update. by destruct (truthy fn).
    + unfold on_file_create. by destruct (truthy fn).
    + unfold on_file_delete. by destruct (truthy fn).
    + done.
    + unfold on_disconnect. simpl.
      assert (WB' : ∀ s S u, socketUser st !! s = Some (S, u) →
                match <[s0 := Closed]> (socks st) !! s with
                | Some (Open rs) => S ∈ rs
                | Some Closed => True
                | None => False
                end).
      { intros s S u Hb. destruct (decide (s = s0)) as [->|Hne].
        - by rewrite lookup_insert_eq.
        - rewrite lookup_insert_ne by done. by apply (WB s S u). }
      by destruct (socketUser st !! s0) as [[? ?]|].
  - simpl. unfold on_save. by destruct (_ || _).
  - simpl. destruct (pending st) as [|k q]; [done|].
    destruct k as [s S0 u0|s S0 u0 fs|s S0 u0 fs us|s S0 f c|S0 f c|S0 f|s S0 u0|S0 f c];
      simpl; unfold socket_emit; try destruct (is_open _ _); try done.
    intros s' S u Hb. simpl in *.
    destruct (decide (s' = s)) as [->|Hne].
    + by rewrite lookup_delete_eq in Hb.
    + rewrite lookup_delete_ne in Hb by done. by apply (WB s' S u).
Qed.

Lemma well_bound_run sched : ∀ st, well_bound st → well_bound (run st sched).
Proof.
  induction sched as [|a sched IH]; intros st WB; [done|].
  rewrite run_cons. apply IH. by apply well_bound_step.
Qed.

End DeliveryFacts.

(** X9.  From the start of the server on, whatever it has handled, a
    connection that is open and registered for a session is in the room of
    that session, so it is among the receivers of the session's
    broadcasts. *)
Theorem registered_connection_is_in_room (sched : list action) (s : sid)
    (sessionId userName : jsval) :
  socketUser (run init sched) !! s = Some (sessionId, userName) →
  is_open s (run init sched) = true →
  in_session s sessionId (run init sched).
Proof.
  intros Hb Ho.
  assert (WB : well_bound (run init sched)).
  { apply well_bound_run. intros s' S u H. simpl in H. by rewrite lookup_empty in H. }
  specialize (WB s sessionId userName Hb).
  unfold is_open in Ho. unfold in_session.
  destruct (socks (run init sched) !! s) as [[rs|]|]; try done. eauto.
Qed.

Lemma registered_connection_is_in_room_witness :
  in_session "b" (JStr "s") two_clients.
Proof.
  apply (registered_connection_is_in_room
           [Connect "a"; Connect "b";
            Arrive 1 "a" (Join (JStr "s") (JStr "alice")); Resume; Resume; Resume;
            Arrive 2 "b" (Join (JStr "s") (JStr "bob")); Resume; Resume; Resume]
           "b" (JStr "s") (JStr "bob")).
  - vm_compute. reflexivity.
  - reflexivity.
Defined.

(** X10.  A REST save whose filename is missing or empty, or whose
    content is absent ([null] or [undefined]), is answered 400 and has no
    other effect: nothing is stored, nothing is sent, no handler waits.
    An empty content, unlike an absent one, is not rejected here. *)
Theorem save_rejected_has_no_effect (st : server) (sessionId : string)
    (filename content : jsval) :
  truthy filename = false ∨ content = JNull ∨ content = JUndefined →
  let st' := step st (HttpSave sessionId filename content) in
  replies st' = replies st ++ [BadRequest "filename & content required"]
  ∧ store st' = store st ∧ outbox st' = outbox st ∧ pending st' = pending st
  ∧ socks st' = socks st.
Proof.
  intros H st'. subst st'. simpl. unfold on_save.
  assert (negb (truthy filename)
          || bool_decide (content = JNull ∨ content = JUndefined) = true) as ->.
  { destruct H as [->|H]; [done|].
    rewrite bool_decide_eq_true_2 by done. apply orb_true_r. }
  done.
Qed.

Lemma save_rejected_has_no_effect_witness :
  let st' := step two_clients (HttpSave "s" (JStr "f.js") JNull) in
  replies st' = replies two_clients ++ [BadRequest "filename & content required"]
  ∧ store st' = store two_clients ∧ outbox st' = outbox two_clients
  ∧ pending st' = pending two_clients ∧ socks st' = socks two_clients.
Proof.
  apply (save_rejected_has_no_effect two_clients "s" (JStr "f.js") JNull).
  right; left; reflexivity.
Defined.

(** X11.  A REST save with a filename and a content stores the content at
    once, so that a [GET /files] of the session issued afterwards reads
    it back; when the handler resumes, [file:updated] is sent to every
    connection of the session, none left out, and the request is answered
    [ok]. *)
Theorem save_stores_and_notifies_session (st : server) (sessionId : string)
    (filename content : jsval) (mid : list action) :
  truthy filename = true →
  content ≠ JNull → content ≠ JUndefined →
  let st1 := step st (HttpSave sessionId filename content) in
  until_reply st1 mid →
  let st2 := run st1 mid in
  let st3 := step st2 Resume in
  get_files sessionId st1 !! toArg filename = Some (toArg content)
  ∧ (∃ sent, outbox st3 = outbox st2 ++ sent
       ∧ ∀ r ev, (r, ev) ∈ sent ↔
           ev = FileUpdated filename content ∧ in_session r (JStr sessionId) st2)
  ∧ replies st3 = replies st2 ++ [SavedOk].
Proof.
  intros Ht Hn Hu st1 U st2 st3.
  assert (Hst1 : st1
            = await (KSaved sessionId filename content)
                (set_store (hset (filesKey (JStr sessionId)) (toArg filename)
                                 (toArg content) (store st)) st)).
  { unfold st1. simpl. unfold on_save. rewrite Ht. simpl.
    rewrite bool_decide_eq_false_2; [done|]. by intros [?|?]. }
  destruct (resume_after st1 (pending st) _ mid (f_equal pending Hst1) U) as [Q HQ].
  fold st2 in HQ. fold st3 in HQ.
  split; [|split].
  - unfold get_files. rewrite Hst1. simpl. rewrite hgetall_hset. by rewrite decide_True.
  - eexists. split.
    + rewrite HQ. reflexivity.
    + intros r ev. rewrite elem_of_broadcast.
      replace (members (JStr sessionId) (set_pending Q st2))
        with (members (JStr sessionId) st2) by reflexivity.
      by rewrite elem_of_members.
  - by rewrite HQ.
Qed.

Lemma save_stores_and_notifies_session_witness :
  let st1 := step two_clients (HttpSave "s" (JStr "f.js") (JStr "")) in
  let st2 := run st1 [] in
  let st3 := step st2 Resume in
  get_files "s" st1 !! toArg (JStr "f.js") = Some (toArg (JStr ""))
  ∧ (∃ sent, outbox st3 = outbox st2 ++ sent
       ∧ ∀ r ev, (r, ev) ∈ sent ↔
           ev = FileUpdated (JStr "f.js") (JStr "") ∧ in_session r (JStr "s") st2)
  ∧ replies st3 = replies st2 ++ [SavedOk].
Proof.
  apply (save_stores_and_notifies_session two_clients "s" (JStr "f.js") (JStr "") []);
    [reflexivity | discriminate | discriminate | reflexivity].
Defined.

(** X12.  When a [join] completes, the events it sends are one
    [session:init] to the joining connection, then one [user:join] with
    the joining name for every other connection of the session and none
    for the joining connection itself.  The users of [session:init] are
    exactly the names stored for the session when the join reads them. *)
Theorem join_announces_to_others (st : server) (now : Z) (j : sid)
    (sessionId userName : jsval) (mid1 mid2 mid3 : list action) :
  is_open j st = true →
  let room := dflt "default" sessionId in
  let name := dflt "Anonymous" userName in
  let a := step st (Arrive now j (Join sessionId userName)) in
  until_reply a mid1 →
  let b := step (run a mid1) Resume in
  until_reply b mid2 →
  let c := step (run b mid2) Resume in
  until_reply c mid3 →
  let d := run c mid3 in
  is_open j d = true →
  ∃ files users rest,
    outbox (step d Resume) = outbox d ++ (j, SessionInit files users) :: rest
    ∧ (∀ r ev, (r, ev) ∈ rest ↔ ev = UserJoin name ∧ r ≠ j ∧ in_session r room d)
    ∧ (∀ u, u ∈ users ↔ u ∈ smembers_set (usersKey room) (store (run b mid2))).
Proof.
  intros Ho room name a U1 b U2 c U3 d Hd.
  do 3 eexists. split; [|split].
  - apply (join_chain st now j sessionId userName mid1 mid2 mid3); done.
  - intros r ev. rewrite elem_of_broadcast, list_elem_of_filter.
    by rewrite elem_of_members.
  - intros u. apply elem_of_smembers.
Qed.

Lemma join_announces_to_others_witness :
  let st := run two_clients [Connect "c"] in
  let a := step st (Arrive 6 "c" (Join (JStr "s") JUndefined)) in
  let b := step (run a []) Resume in
  let c := step (run b []) Resume in
  let d := run c [] in
  ∃ files users rest,
    outbox (step d Resume) = outbox d ++ ("c", SessionInit files users) :: rest
    ∧ (∀ r ev, (r, ev) ∈ rest ↔
         ev = UserJoin (dflt "Anonymous" JUndefined) ∧ r ≠ "c"
         ∧ in_session r (dflt "default" (JStr "s")) d)
    ∧ (∀ u, u ∈ users ↔
         u ∈ smembers_set (usersKey (dflt "default" (JStr "s"))) (store (run b []))).
Proof.
  apply (join_announces_to_others (run two_clients [Connect "c"]) 6 "c"
           (JStr "s") JUndefined [] [] []);
    reflexivity.
Defined.

(** * Further properties of the [/run] endpoint *)

(** X13.  [html] is passed through: a request with language [html], a
    non-empty code and a session id that is a string or absent is
    answered, when the session directory can be made, with status 200, its
    own code as output and [ok: true]; no file is written and no process
    spawned, the only effect being the session directory made when it is
    missing. *)
Theorem html_is_echoed (w : world) (req : request) (log : list effect) :
  language req = JStr "html" →
  truthy (code req) = true →
  (sessionId req = JUndefined ∨ ∃ name, sessionId req = JStr name) →
  (∀ p, fs_fault w log (MkDir p) = None) →
  ∃ log',
    post_run w req log = (inl (mkResponse 200 (ResultBody (code req) true)), log')
    ∧ (log' = log ∨ ∃ p, log' = log ++ [MkDir p]).
Proof.
  intros Hl Hc Hs Hfs.
  assert (Hrun : ∀ sessionTemp l,
    run_language w sessionTemp (language req) (filename req) (code req) l
    = (inl (mkResponse 200 (ResultBody (code req) true)), l)).
  { intros sessionTemp l. by rewrite Hl. }
  assert (∃ name, dflt "default" (sessionId req) = JStr name) as [name Hn].
  { destruct Hs as [->|[name ->]]; eauto. }
  rewrite post_run_valid by (by rewrite Hl, Hc).
  unfold bind, try_catch, existsSync, mkdirSync, fs_call. rewrite Hn.
  cbn -[run_language]. destruct (fs_exists w log _).
  - exists log. unfold ret at 1. cbn -[run_language]. rewrite Hrun. split; [done | by left].
  - rewrite Hfs. eexists. cbn -[run_language]. rewrite Hrun.
    split; [done | right; eauto].
Qed.

Lemma html_is_echoed_witness :
  ∃ log',
    post_run (posix all_fine)
      (mkRequest (JStr "s") (JStr "html") JUndefined (JStr "<b>x</b>")) []
    = (inl (mkResponse 200 (ResultBody (JStr "<b>x</b>") true)), log')
    ∧ (log' = [] ∨ ∃ p, log' = [] ++ [MkDir p]).
Proof.
  apply (html_is_echoed (posix all_fine)
           (mkRequest (JStr "s") (JStr "html") JUndefined (JStr "<b>x</b>")) []).
  - reflexivity.
  - reflexivity.
  - right. by exists "s".
  - reflexivity.
Defined.

(** [node] is another name of [javascript]: the two languages are
    handled in the same way, whatever the rest of the request and the
    platform. *)
Theorem node_is_javascript (w : world) (sessionId filename code : jsval)
    (log : list effect) :
  post_run w (mkRequest sessionId (JStr "node") filename code) log
  = post_run w (mkRequest sessionId (JStr "javascript") filename code) log.
Proof. reflexivity. Qed.

Section RunTraces.
Variable w : world.
Hypothesis no_fault : ∀ log e, fs_fault w log e = None.

(** Making sure a directory exists adds at most its creation to the log. *)
Lemma ensure_dir_then {A} (p : string) (k : M A) (log : list effect) :
  ∃ dirs, Forall (eq (MkDir p)) dirs
    ∧ (ex <- existsSync w p ;; (if ex then ret tt else mkdirSync w p) ;;; k) log
      = k (log ++ dirs).
Proof.
  unfold bind, existsSync, mkdirSync, fs_call.
  destruct (fs_exists w log p).
  - exists []. split; [constructor|]. by rewrite app_nil_r.
  - rewrite no_fault. exists [MkDir p]. split; [by repeat constructor | done].
Qed.

Lemma writeTempFile_trace (folder name : string) (content : jsval) (log : list effect) :
  ∃ dirs, Forall (eq (MkDir folder)) dirs
    ∧ writeTempFile w folder (JStr name) content log
      = (inl (path_join w [folder; name]),
         log ++ dirs ++ [WriteFile (path_join w [folder; name]) content]).
Proof.
  unfold writeTempFile.
  destruct (ensure_dir_then folder
              (p <- join_name w folder (JStr name) ;;
               writeFileSync w p content ;;; ret p) log) as (dirs & F & E).
  exists dirs. split; [done|]. rewrite E.
  unfold bind, join_name, ret, writeFileSync, fs_call. rewrite no_fault.
  by rewrite app_assoc.
Qed.

Lemma runCommand_answer (command cwd : string) (t : Z) (log : list effect) :
  (result <- runCommand w command cwd t ;; res_json (JStr (out result)) (ok result)) log
  = (inl (answer (exec_result w log command cwd t)), log ++ [Exec command cwd t]).
Proof.
  unfold bind, runCommand, res_json, ret, answer.
  by destruct (err (exec_result w log command cwd t)).
Qed.

Lemma post_run_valid_at (req : request) (name : string) (log : list effect) :
  truthy (language req) && truthy (code req) = true →
  dflt "default" (sessionId req) = JStr name →
  post_run w req log =
  (ex <- existsSync w (path_join w [BASE_TEMP w; name]) ;;
   (if ex then ret tt else mkdirSync w (path_join w [BASE_TEMP w; name])) ;;;
   try_catch
     (run_language w (path_join w [BASE_TEMP w; name])
        (language req) (filename req) (code req))
     (fun e =>
        ret (mkResponse 500
               (ResultBody (JStr ("Server error: " +:+ message_of e)) false)))) log.
Proof. intros Hv Hn. rewrite post_run_valid by done. by rewrite Hn. Qed.

Lemma run_language_interpreted sessionTemp lang interp dname filename code :
  interpreter lang = Some (interp, dname) →
  run_language w sessionTemp (JStr lang) filename code =
  (filePath <- writeTempFile w sessionTemp (or_else filename (JStr dname)) code ;;
   result <- runCommand w (interp +:+ " " +:+ quoted filePath) sessionTemp 15000 ;;
   res_json (JStr (out result)) (ok result)).
Proof.
  unfold interpreter.
  destruct (String.eqb lang "python") eqn:E1.
  { apply String.eqb_eq in E1 as ->. by intros [= <- <-]. }
  destruct (String.eqb lang "javascript") eqn:E2.
  { apply String.eqb_eq in E2 as ->. by intros [= <- <-]. }
  destruct (String.eqb lang "node") eqn:E3; [|done].
  apply String.eqb_eq in E3 as ->. by intros [= <- <-].
Qed.

End RunTraces.

(** X14.  For an interpreted language (python, javascript, node), a
    well-formed request on a file system that does not fail has exactly
    this effect: the session directory is made if it is missing, the code
    is written to the requested file name, or to [main.py] or [main.js]
    when the request names none, in the session directory, and one
    process, the interpreter on that file, is run from that directory
    with a timeout of 15 seconds; the response is the outcome of that
    process. *)
Theorem interpreted_run (w : world) (req : request) (log : list effect)
    (lang interp dname name src fname : string) :
  (∀ log e, fs_fault w log e = None) →
  interpreter lang = Some (interp, dname) →
  language req = JStr lang →
  dflt "default" (sessionId req) = JStr name →
  code req = JStr src → src ≠ "" →
  or_else (filename req) (JStr dname) = JStr fname →
  let sessionTemp := path_join w [BASE_TEMP w; name] in
  let filePath := path_join w [sessionTemp; fname] in
  let cmd := interp +:+ " " +:+ quoted filePath in
  ∃ dirs, Forall (eq (MkDir sessionTemp)) dirs
    ∧ let log1 := log ++ dirs ++ [WriteFile filePath (JStr src)] in
      post_run w req log
      = (inl (answer (exec_result w log1 cmd sessionTemp 15000)),
         log1 ++ [Exec cmd sessionTemp 15000]).
Proof.
  intros Hfs Hi Hl Hn Hc Hsrc Hf sessionTemp filePath cmd.
  assert (Hv : truthy (language req) && truthy (code req) = true).
  { rewrite Hl, Hc. simpl. destruct src; [done|].
    unfold interpreter in Hi. destruct lang; [done|]. done. }
  rewrite (post_run_valid_at w req name log Hv Hn). fold sessionTemp.
  rewrite Hl, Hc, (run_language_interpreted w _ _ _ _ _ _ Hi), Hf.
  destruct (ensure_dir_then w Hfs sessionTemp
    (try_catch
       (filePath <- writeTempFile w sessionTemp (JStr fname) (JStr src) ;;
        result <- runCommand w (interp +:+ " " +:+ quoted filePath) sessionTemp 15000 ;;
        res_json (JStr (out result)) (ok result))
       (fun e => ret (mkResponse 500
                        (ResultBody (JStr ("Server error: " +:+ message_of e)) false))))
    log) as (dirs1 & F1 & E1).
  rewrite E1. unfold try_catch, bind at 1.
  destruct (writeTempFile_trace w Hfs sessionTemp fname (JStr src) (log ++ dirs1))
    as (dirs2 & F2 & E2).
  rewrite E2. fold filePath cmd. rewrite runCommand_answer.
  exists (dirs1 ++ dirs2). split; [by apply Forall_app|].
  simpl. by rewrite <- !app_assoc.
Qed.

Lemma interpreted_run_witness :
  let w := posix all_fine in
  let sessionTemp := path_join w [BASE_TEMP w; "s"] in
  let filePath := path_join w [sessionTemp; "main.js"] in
  let cmd := "node" +:+ " " +:+ quoted filePath in
  ∃ dirs, Forall (eq (MkDir sessionTemp)) dirs
    ∧ let log1 := [] ++ dirs ++ [WriteFile filePath (JStr "console.log(1)")] in
      post_run w (mkRequest (JStr "s") (JStr "node") JUndefined (JStr "console.log(1)")) []
      = (inl (answer (exec_result w log1 cmd sessionTemp 15000)),
         log1 ++ [Exec cmd sessionTemp 15000]).
Proof.
  apply (interpreted_run (posix all_fine)
           (mkRequest (JStr "s") (JStr "node") JUndefined (JStr "console.log(1)")) []
           "node" "node" "main.js" "s" "console.log(1)" "main.js");
    try reflexivity.
  discriminate.
Defined.

Lemma post_run_invalid (w : world) (req : request) (log : list effect) :
  truthy (language req) && truthy (code req) = false →
  post_run w req log
  = (inl (mkResponse 400 (ErrorBody "language & code required")), log).
Proof.
  intros H. unfold post_run.
  apply andb_false_iff in H as [->| ->]; simpl; [done|].
  by rewrite orb_true_r.
Qed.

(** X15.  A request whose session id is a string or absent is always
    answered when the session directory can be made: no exception escapes
    the handler, and the status of the answer is 200, 400 or 500. *)
Theorem run_always_answers (w : world) (req : request) (log : list effect) :
  (sessionId req = JUndefined ∨ ∃ name, sessionId req = JStr name) →
  (∀ p, fs_fault w log (MkDir p) = None) →
  ∃ r log',
    post_run w req log = (inl r, log')
    ∧ (status r = 200 ∨ status r = 400 ∨ status r = 500).
Proof.
  intros Hs Hfs.
  destruct (truthy (language req) && truthy (code req)) eqn:Hv.
  - assert (∃ name, dflt "default" (sessionId req) = JStr name) as [name Hn]
      by (destruct Hs as [->|[name ->]]; eauto).
    rewrite (post_run_valid_at w req name log Hv Hn).
    assert (Htc : ∀ l, ∃ r l',
      try_catch
        (run_language w (path_join w [BASE_TEMP w; name])
           (language req) (filename req) (code req))
        (fun e => ret (mkResponse 500
                         (ResultBody (JStr ("Server error: " +:+ message_of e)) false))) l
      = (inl r, l') ∧ (status r = 200 ∨ status r = 400 ∨ status r = 500)).
    { intros l. unfold try_catch.
      destruct (run_language w _ _ _ _ l) as [[r|e] l'] eqn:E.
      - exists r, l'. split; [done|]. left.
        exact (run_language_200 w _ _ _ _ l r l' E).
      - eexists _, l'. split; [reflexivity|]. right; right. reflexivity. }
    unfold bind, existsSync, mkdirSync, fs_call.
    destruct (fs_exists w log _); [apply Htc|]. rewrite Hfs. apply Htc.
  - exists (mkResponse 400 (ErrorBody "language & code required")), log.
    split; [|right; left; reflexivity].
    by apply post_run_invalid.
Qed.

Lemma run_always_answers_witness :
  ∃ r log',
    post_run (posix all_fine) (mkRequest JUndefined (JStr "java") (JNum (7%Z ↾ I)) (JStr "class A{}")) []
    = (inl r, log')
    ∧ (status r = 200 ∨ status r = 400 ∨ status r = 500).
Proof.
  apply (run_always_answers (posix all_fine)
           (mkRequest JUndefined (JStr "java") (JNum (7%Z ↾ I)) (JStr "class A{}")) []).
  - by left.
  - reflexivity.
Defined.

Section ThrowFacts.
Variable w : world.

Lemma throws_early_bind {A B} (m : M A) (k : A → M B) :
  quiet m → (∀ a, throws_early (k a)) → throws_early (bind m k).
Proof.
  intros Hm Hk log. unfold bind.
  destruct (Hm log) as (ext1 & E1 & F1).
  destruct (m log) as [[a|e] l]; simpl in E1; subst l.
  - destruct (Hk a (log ++ ext1)) as (ext2 & E2 & H2).
    exists (ext1 ++ ext2). rewrite E2, app_assoc. split; [done|].
    intros e He. rewrite first_exec_app by done. by rewrite (H2 e He).
  - by exists ext1.
Qed.

Lemma throws_early_answer command cwd t :
  throws_early (result <- runCommand w command cwd t ;;
                res_json (JStr (out result)) (ok result)).
Proof.
  intros log. exists [Exec command cwd t]. split; [done|]. by intros e [=].
Qed.

Lemma throws_early_compile compileCmd cwd t runCmd t' :
  throws_early
    (compileResult <- runCommand w compileCmd cwd t ;;
     if negb (ok compileResult) then res_json (JStr (out compileResult)) false
     else
       runResult <- runCommand w runCmd cwd t' ;;
       res_json (JStr (out runResult)) (ok runResult)).
Proof.
  intros log. unfold bind, runCommand, res_json, ret.
  destruct (err (exec_result w log compileCmd cwd t)); simpl.
  - exists [Exec compileCmd cwd t]. split; [done|]. by intros e [=].
  - exists [Exec compileCmd cwd t; Exec runCmd cwd t'].
    split; [by rewrite <- app_assoc|]. by intros e [=].
Qed.

Lemma throws_early_res_json output b : throws_early (res_json output b).
Proof. intros log. exists []. rewrite app_nil_r. split; [done|]. by intros e [=]. Qed.

Lemma run_language_throws_early sessionTemp language filename code :
  throws_early (run_language w sessionTemp language filename code).
Proof.
  unfold run_language.
  repeat first
    [ apply throws_early_answer
    | apply throws_early_compile
    | apply throws_early_res_json
    | match goal with
      | |- throws_early (if ?b then _ else _) => destruct b
      end
    | apply throws_early_bind;
      [first [apply quiet_writeTempFile | apply quiet_className] | intros ?] ].
Qed.

End ThrowFacts.

(** X16.  A server error (status 500) is only ever answered before
    anything ran: its output is [Server error: ] followed by the message
    of the exception, [ok] is [false], and the handler has spawned no
    process. *)
Theorem server_error_before_any_process (w : world) (req : request)
    (log log' : list effect) (r : response) :
  post_run w req log = (inl r, log') →
  status r = 500 →
  (∃ m, json r = ResultBody (JStr ("Server error: " +:+ m)) false)
  ∧ first_exec (added log log') = None.
Proof.
  intros Hrun Hst.
  destruct (truthy (language req) && truthy (code req)) eqn:Hv.
  2:{ rewrite post_run_invalid in Hrun by done. injection Hrun as <- _. done. }
  rewrite post_run_valid in Hrun by done.
  unfold bind at 1 in Hrun. unfold join_name in Hrun.
  destruct (dflt "default" (sessionId req)) as [| |?|?|name]; try discriminate.
  unfold ret at 1 in Hrun.
  assert (Htc : ∀ pre, first_exec pre = None →
    try_catch
      (run_language w (path_join w [BASE_TEMP w; name])
         (language req) (filename req) (code req))
      (fun e => ret (mkResponse 500
                       (ResultBody (JStr ("Server error: " +:+ message_of e)) false)))
      (log ++ pre) = (inl r, log') →
    (∃ m, json r = ResultBody (JStr ("Server error: " +:+ m)) false)
    ∧ first_exec (added log log') = None).
  { intros pre Hpre. unfold try_catch.
    destruct (run_language_throws_early w (path_join w [BASE_TEMP w; name])
                (language req) (filename req) (code req) (log ++ pre))
      as (ext & E & H).
    destruct (run_language w _ _ _ _ (log ++ pre)) as [[r0|e] l] eqn:Er;
      simpl in E, H; subst l.
    - intros [= -> <-]. 
      pose proof (run_language_200 w _ _ _ _ _ _ _ Er) as H2. simpl in H2.
      rewrite Hst in H2. discriminate.
    - intros [= <- <-]. split; [by eexists|].
      rewrite <- app_assoc, added_app, first_exec_app by done.
      by rewrite (H e eq_refl). }
  unfold bind, existsSync, mkdirSync, fs_call in Hrun.
  destruct (fs_exists w log _).
  - apply (Htc []); [done|]. by rewrite app_nil_r.
  - destruct (fs_fault w log _); [discriminate|].
    by apply (Htc [MkDir (path_join w [BASE_TEMP w; name])]).
Qed.

Lemma server_error_before_any_process_witness :
  (∃ m, json (mkResponse 500
                (ResultBody (JStr "Server error: The path argument must be of type string")
                   false))
        = ResultBody (JStr ("Server error: " +:+ m)) false)
  ∧ first_exec (added [] [MkDir "/srv/temp/default"]) = None.
Proof.
  apply (server_error_before_any_process (posix all_fine)
           (mkRequest JUndefined (JStr "python") (JNum (7%Z ↾ I)) (JStr "print(1)"))
           [] [MkDir "/srv/temp/default"]
           (mkResponse 500
              (ResultBody (JStr "Server error: The path argument must be of type string")
                 false)));
    reflexivity.
Defined.

Section RunAfterCompile.
Variable w : world.





End RunAfterCompile.



(** X18.  The Java branch in full, for a well-formed request on a file
    system that does not fail: the source is written to [<class>.java] in
    the session directory, compiled with [javac] (10 seconds); if that
    fails the answer is the compiler's outcome and nothing else runs;
    otherwise the class of that same name is run with the session
    directory as class path (10 seconds) and the answer is the outcome of
    the run. *)
Theorem java_run_trace (w : world) (req : request) (log : list effect)
    (name src cn : string) :
  (∀ log e, fs_fault w log e = None) →
  language req = JStr "java" →
  dflt "default" (sessionId req) = JStr name →
  code req = JStr src → src ≠ "" →
  className w (filename req) (JStr src) = ret cn →
  let sessionTemp := path_join w [BASE_TEMP w; name] in
  let filePath := path_join w [sessionTemp; cn +:+ ".java"] in
  let compileCmd := javac w +:+ " " +:+ quoted filePath in
  let runCmd := javaCmd w +:+ " -cp " +:+ quoted sessionTemp +:+ " " +:+ cn in
  ∃ dirs, Forall (eq (MkDir sessionTemp)) dirs
    ∧ let log1 := log ++ dirs ++ [WriteFile filePath (JStr src)] in
      let log2 := log1 ++ [Exec compileCmd sessionTemp 10000] in
      let compiled := exec_result w log1 compileCmd sessionTemp 10000 in
      post_run w req log
      = match err compiled with
        | Some _ => (inl (answer compiled), log2)
        | None =>
            (inl (answer (exec_result w log2 runCmd sessionTemp 10000)),
             log2 ++ [Exec runCmd sessionTemp 10000])
        end.
Proof.
  intros Hfs Hl Hn Hc Hsrc Hcn sessionTemp filePath compileCmd runCmd.
  assert (Hv : truthy (language req) && truthy (code req) = true).
  { rewrite Hl, Hc. simpl. by destruct src. }
  rewrite (post_run_valid_at w req name log Hv Hn). fold sessionTemp.
  rewrite Hl, Hc, run_language_java, Hcn.
  destruct (ensure_dir_then w Hfs sessionTemp
    (try_catch
       (className <- ret cn ;;
        filePath <- writeTempFile w sessionTemp (JStr (className +:+ ".java")) (JStr src) ;;
        compileResult <- runCommand w (javac w +:+ " " +:+ quoted filePath) sessionTemp 10000 ;;
        if negb (ok compileResult) then res_json (JStr (out compileResult)) false
        else
          runResult <- runCommand w (javaCmd w +:+ " -cp " +:+ quoted sessionTemp
                                     +:+ " " +:+ className) sessionTemp 10000 ;;
          res_json (JStr (out runResult)) (ok runResult))
       (fun e => ret (mkResponse 500
                        (ResultBody (JStr ("Server error: " +:+ message_of e)) false))))
    log) as (dirs1 & F1 & E1).
  rewrite E1. unfold try_catch, bind at 1. unfold ret at 1. unfold bind at 1.
  destruct (writeTempFile_trace w Hfs sessionTemp (cn +:+ ".java") (JStr src) (log ++ dirs1))
    as (dirs2 & F2 & E2).
  rewrite E2. fold filePath compileCmd runCmd.
  exists (dirs1 ++ dirs2). split; [by apply Forall_app|].
  cbv zeta. unfold bind, runCommand, res_json, ret, answer.
  repeat rewrite <- app_assoc. simpl.
  destruct (err (exec_result w _ compileCmd sessionTemp 10000)) eqn:Ec; simpl.
  - done.
  - repeat rewrite <- app_assoc. simpl.
    by destruct (err (exec_result w _ runCmd sessionTemp 10000)).
Qed.

Lemma java_run_trace_witness :
  let w := posix failing_compilers in
  let sessionTemp := path_join w [BASE_TEMP w; "s"] in
  let filePath := path_join w [sessionTemp; "Bar" +:+ ".java"] in
  let compileCmd := javac w +:+ " " +:+ quoted filePath in
  let runCmd := javaCmd w +:+ " -cp " +:+ quoted sessionTemp +:+ " " +:+ "Bar" in
  ∃ dirs, Forall (eq (MkDir sessionTemp)) dirs
    ∧ let log1 := [] ++ dirs ++ [WriteFile filePath (JStr "public class Bar {")] in
      let log2 := log1 ++ [Exec compileCmd sessionTemp 10000] in
      let compiled := exec_result w log1 compileCmd sessionTemp 10000 in
      post_run w (mkRequest (JStr "s") (JStr "java") JUndefined (JStr "public class Bar {")) []
      = match err compiled with
        | Some _ => (inl (answer compiled), log2)
        | None =>
            (inl (answer (exec_result w log2 runCmd sessionTemp 10000)),
             log2 ++ [Exec runCmd sessionTemp 10000])
        end.
Proof.
  apply (java_run_trace (posix failing_compilers)
           (mkRequest (JStr "s") (JStr "java") JUndefined (JStr "public class Bar {")) []
           "s" "public class Bar {" "Bar");
    try reflexivity.
  discriminate.
Defined.

(** X19.  A class name taken from the source is a non-empty word of
    letters, digits and underscores: it holds no space, quote, slash or
    other character that would change the file name or the command it is
    put into. *)
Theorem class_name_is_identifier (code name : string) :
  public_class code = Some name →
  name ≠ "" ∧ all_chars is_word name = true.
Proof.
  intros H. apply public_class_Some in H as (pre & s & _ & Hd & _).
  destruct Hd as (ws1 & ws2 & rest & _ & _ & _ & _ & _ & (c & tl & -> & Hc & Htl) & _).
  split; [done|]. simpl. rewrite Htl. unfold is_word. by rewrite Hc.
Qed.

Lemma class_name_is_identifier_witness :
  "Foo_1" ≠ "" ∧ all_chars is_word "Foo_1" = true.
Proof.
  apply (class_name_is_identifier "public class Foo_1; rm -rf" "Foo_1").
  reflexivity.
Defined.

(** X20.  Joining a second session neither leaves the room of the first
    nor takes any name out of it: the connection still receives the first
    session's broadcasts, and when it disconnects only the name of its
    last join is removed, so a name present in the first session stays
    among its users. *)
Theorem joining_another_session_keeps_the_first (st : server) (s : sid)
    (S1 : jsval) (name1 : string) (now2 : Z) (S2 u2 : jsval) (now3 : Z) :
  in_session s S1 st →
  name1 ∈ smembers_set (usersKey S1) (store st) →
  usersKey (dflt "default" S2) ≠ usersKey S1 →
  let st1 := step st (Arrive now2 s (Join S2 u2)) in
  let st2 := step st1 (Arrive now3 s Disconnect) in
  in_session s S1 st1
  ∧ name1 ∈ smembers_set (usersKey S1) (store st2).
Proof.
  intros (rs & Hs & Hin) Hp Hk st1 st2.
  assert (Ho : is_open s st = true) by (unfold is_open; by rewrite Hs).
  assert (Hst1 : st1 = await (KJoinFiles s (dflt "default" S2) (dflt "Anonymous" u2))
            (set_store (sadd (usersKey (dflt "default" S2))
                             (toArg (dflt "Anonymous" u2)) (store st))
               (set_socketUser (<[s := (dflt "default" S2, dflt "Anonymous" u2)]>
                                  (socketUser st))
                  (set_socks (<[s := Open ({[dflt "default" S2]} ∪ rs)]> (socks st)) st)))).
  { unfold st1. rewrite step_open_arrive by done. simpl.
    unfold on_join, socket_join. by rewrite Hs. }
  split.
  - exists ({[dflt "default" S2]} ∪ rs). rewrite Hst1. simpl.
    rewrite lookup_insert_eq. split; [done|]. apply elem_of_union. by right.
  - unfold st2. rewrite Hst1. apply step_keeps_member.
    + simpl. unfold is_open. simpl. rewrite !lookup_insert_eq. simpl.
      by rewrite bool_decide_eq_false_2.
    + simpl. rewrite smembers_set_sadd. by rewrite decide_False.
Qed.

Lemma joining_another_session_keeps_the_first_witness :
  let st1 := step two_clients (Arrive 3 "a" (Join (JStr "t") (JStr "alice"))) in
  let st2 := step st1 (Arrive 4 "a" Disconnect) in
  in_session "a" (JStr "s") st1
  ∧ "alice" ∈ smembers_set (usersKey (JStr "s")) (store st2).
Proof.
  apply (joining_another_session_keeps_the_first two_clients "a" (JStr "s") "alice"
           3 (JStr "t") (JStr "alice") 4).
  - exists {[JStr "a"; JStr "s"]}. split; [vm_compute; reflexivity|].
    apply elem_of_union. right. by apply elem_of_singleton.
  - vm_compute. reflexivity.
  - vm_compute. discriminate.
Defined.

(** * Properties of the client's view *)

(** X21.  Whatever file is opened, the language the client sends with a
    run request is one the server has a branch for: starting from a
    language of the selector, [autoSetLangFromFilename] followed by
    [mapLang] always gives a registered language, so the client never
    draws [Language not supported]. *)
Theorem client_language_is_registered (fn language : string) :
  language ∈ selectable →
  mapLang (autoSetLangFromFilename fn language) ∈ registered.
Proof.
  intros Hl. unfold autoSetLangFromFilename.
  repeat match goal with
         | |- context [if ?b then _ else _] =>
             lazymatch b with
             | context [autoSetLangFromFilename] => fail
             | _ => destruct b
             end
         end;
    try (apply list_elem_of_In; simpl; tauto).
  unfold selectable in Hl.
  repeat (apply elem_of_cons in Hl as [->|Hl];
          [apply list_elem_of_In; simpl; tauto|]).
  by apply elem_of_nil in Hl.
Qed.

Lemma client_language_is_registered_witness :
  mapLang (autoSetLangFromFilename "lib/util.cxx" "python") ∈ registered.
Proof.
  apply (client_language_is_registered "lib/util.cxx" "python").
  apply list_elem_of_In. simpl. tauto.
Defined.

(** X22.  The history never holds more than 200 items; the newest item
    comes first, and nothing is dropped while there is room. *)
Theorem history_is_bounded {A} (item : A) (h : list A) :
  length (pushHistory item h) ≤ 200
  ∧ head (pushHistory item h) = Some item
  ∧ (length h < 200 → pushHistory item h = item :: h).
Proof.
  unfold pushHistory. split; [|split].
  - rewrite length_take. lia.
  - done.
  - intros H. apply take_ge. simpl. lia.
Qed.

(** X23.  The chat never holds more than 300 messages; the newest message
    comes last, and nothing is dropped while there is room. *)
Theorem chat_is_bounded {A} (msg : A) (c : list A) :
  length (on_chat msg c) ≤ 300
  ∧ last (on_chat msg c) = Some msg
  ∧ (length c < 300 → on_chat msg c = c ++ [msg]).
Proof.
  unfold on_chat. cbv zeta. rewrite length_app. simpl. split; [|split].
  - rewrite length_drop, length_app. simpl. lia.
  - rewrite last_lookup, length_drop, lookup_drop, length_app. simpl.
    replace (length c + 1 - 300 + pred (length c + 1 - (length c + 1 - 300)))
      with (length c) by lia.
    rewrite lookup_app_r by lia. by rewrite Nat.sub_diag.
  - intros H. replace (length c + 1 - 300) with 0 by lia. apply drop_0.
Qed.

Section UsersFacts.

Let add (acc : list jsval) (x : jsval) : list jsval :=
  if decide (x ∈ acc) then acc else acc ++ [x].

Lemma fold_add_spec (l : list jsval) : ∀ acc,
  NoDup acc →
  NoDup (fold_left add l acc)
  ∧ (∀ y, y ∈ fold_left add l acc ↔ y ∈ acc ∨ y ∈ l)
  ∧ ∃ t, fold_left add l acc = acc ++ t.
Proof.
  induction l as [|x l IH]; intros acc Hnd; simpl.
  - split; [done|]. split.
    + intros y. rewrite elem_of_nil. tauto.
    + exists []. by rewrite app_nil_r.
  - assert (Hnd' : NoDup (add acc x)).
    { unfold add. destruct (decide (x ∈ acc)); [done|].
      apply NoDup_app. split; [done|]. split; [|apply NoDup_singleton].
      intros y Hy Hx%list_elem_of_singleton. by subst. }
    destruct (IH (add acc x) Hnd') as (H1 & H2 & [t H3]).
    split; [done|]. split.
    + intros y. rewrite H2, elem_of_cons. unfold add.
      destruct (decide (x ∈ acc)) as [Hx|Hx].
      * split; [tauto|]. intros [?|[->|?]]; tauto.
      * rewrite elem_of_app, list_elem_of_singleton. tauto.
    + unfold add in H3 |- *. destruct (decide (x ∈ acc)).
      * by exists t.
      * exists ([x] ++ t). by rewrite H3, <- app_assoc.
Qed.

End UsersFacts.

(** X24.  The list of users the client shows: after [user:join] it
    contains the joining name once, every user shown before is still
    shown, and no name is shown twice; after [user:left] the name is not
    shown at all, however many connections bore it, and the other users
    are as before. *)
Theorem users_list_after_join_and_left (userName : jsval) (u : list jsval) :
  NoDup (on_user_join userName u)
  ∧ (∀ y, y ∈ on_user_join userName u ↔ y ∈ u ∨ y = userName)
  ∧ userName ∉ on_user_left userName u
  ∧ (∀ y, y ≠ userName → y ∈ on_user_left userName u ↔ y ∈ u).
Proof.
  unfold on_user_join, on_user_left, set_of.
  destruct (fold_add_spec (u ++ [userName]) [] (NoDup_nil_2)) as (H1 & H2 & _).
  split; [exact H1|]. split; [|split].
  - intros y. unfold set_of. 
    pose proof (H2 y) as Hy. rewrite elem_of_app, list_elem_of_singleton in Hy.
    rewrite elem_of_nil in Hy. tauto.
  - intros [H _]%list_elem_of_filter. done.
  - intros y Hy. rewrite list_elem_of_filter. tauto.
Qed.
